(** * queries.js of the plp_bookstore assignment, embedded and verified

    The script [queries.js] drives a MongoDB collection through four tasks
    (CRUD, advanced queries, aggregation, indexing) and prints every result.
    This development embeds the script over an executable model of the store:

    - documents are field/value association lists, a collection is the list
      of its documents in natural order;
    - the driver calls the script makes ([find] cursors, [updateOne],
      [findOne], [deleteOne], [aggregate], [createIndex], [explain]) are pure
      functions of the collection, wrapped in a state-and-exception monad
      whose world holds the collection, the indexes, the console, the trace of
      driver calls and a schedule of injected store failures;
    - a sorted find run by the script returns equal keys in natural order;
      the store promises less, and [answers] is the relation of all the
      results it may return, ties in any order and chosen at each query;
    - a write the store rejects may have been carried out before the
      rejection reached the driver ([applied]);
    - the script's own functions ([printResult], [runTask2] .. [runTask5],
      [analyzePlan], [main]) are transcribed statement by statement.

    Numbers are JavaScript numbers; they are modelled as rationals, so the
    rounding of IEEE doubles is not part of the model. *)

From Stdlib Require Import List String Ascii ZArith QArith Lia Bool Arith.
From Stdlib Require Import Permutation Sorted DecimalString.
Import ListNotations.
Close Scope Q_scope.
Open Scope string_scope.
Open Scope list_scope.

(** ** Values and documents *)

(** The scalar BSON values a flat Book document can hold. *)
Inductive value : Type :=
| VNull
| VNum (q : Q)
| VStr (s : string)
| VId (n : nat)
| VBool (b : bool).

Definition doc : Type := list (string * value).

(** BSON comparison order across types: null, numbers, strings, object ids,
    booleans. *)
Definition type_rank (v : value) : nat :=
  match v with
  | VNull => 1
  | VNum _ => 2
  | VStr _ => 3
  | VId _ => 7
  | VBool _ => 8
  end.

Definition bool_compare (a b : bool) : comparison :=
  match a, b with
  | false, true => Lt
  | true, false => Gt
  | _, _ => Eq
  end.

Definition value_compare (a b : value) : comparison :=
  match a, b with
  | VNull, VNull => Eq
  | VNum x, VNum y => Qcompare x y
  | VStr x, VStr y => String.compare x y
  | VId x, VId y => Nat.compare x y
  | VBool x, VBool y => bool_compare x y
  | _, _ => Nat.compare (type_rank a) (type_rank b)
  end.

Definition value_eqb (a b : value) : bool :=
  match value_compare a b with Eq => true | _ => false end.

Definition value_leb (a b : value) : bool :=
  match value_compare a b with Gt => false | _ => true end.

Definition value_ltb (a b : value) : bool :=
  match value_compare a b with Lt => true | _ => false end.

Definition same_type (a b : value) : bool :=
  Nat.eqb (type_rank a) (type_rank b).

Fixpoint lookup (k : string) (d : doc) : option value :=
  match d with
  | [] => None
  | (k', v) :: d' => if String.eqb k k' then Some v else lookup k d'
  end.

(** A field that is absent reads as null in filters, sort keys and
    aggregation expressions. *)
Definition field (k : string) (d : doc) : value :=
  match lookup k d with Some v => v | None => VNull end.

(** [$set]: overwrite the field where it stands, or append it. *)
Fixpoint set_field (k : string) (v : value) (d : doc) : doc :=
  match d with
  | [] => [(k, v)]
  | (k', v') :: d' =>
      if String.eqb k k' then (k', v) :: d' else (k', v') :: set_field k v d'
  end.

(** ** Filters *)

Inductive cond : Type :=
| CEq (v : value)          (* { f: v } *)
| CGt (v : value)          (* { f: { $gt: v } } *)
| CLt (v : value).         (* { f: { $lt: v } } *)

(** A filter document; its conditions are joined by an implicit AND. *)
Definition filter : Type := list (string * cond).

(** Range operators only match values of the operand's own type. *)
Definition holds (c : cond) (x : value) : bool :=
  match c with
  | CEq v => value_eqb x v
  | CGt v => same_type x v && value_ltb v x
  | CLt v => same_type x v && value_ltb x v
  end.

Definition matches (f : filter) (d : doc) : bool :=
  forallb (fun kc => holds (snd kc) (field (fst kc) d)) f.

(** ** Cursors: find().sort().skip().limit().project().toArray() *)

Inductive direction : Type := Asc | Desc.

(** [1] is [Asc], [-1] is [Desc]. *)
Definition sort_spec : Type := (string * direction)%type.

(** An inclusion projection: the fields marked 1, and whether [_id] is kept. *)
Record projection : Type := {
  p_fields : list string;
  p_id : bool
}.

Record cursor : Type := {
  q_filter : filter;
  q_sort : option sort_spec;
  q_skip : nat;
  q_limit : nat;               (* 0: no limit *)
  q_project : option projection
}.

Definition find (f : filter) : cursor :=
  {| q_filter := f; q_sort := None; q_skip := 0; q_limit := 0;
     q_project := None |}.

Definition sort (s : sort_spec) (c : cursor) : cursor :=
  {| q_filter := q_filter c; q_sort := Some s; q_skip := q_skip c;
     q_limit := q_limit c; q_project := q_project c |}.

Definition skip (n : nat) (c : cursor) : cursor :=
  {| q_filter := q_filter c; q_sort := q_sort c; q_skip := n;
     q_limit := q_limit c; q_project := q_project c |}.

Definition limit (n : nat) (c : cursor) : cursor :=
  {| q_filter := q_filter c; q_sort := q_sort c; q_skip := q_skip c;
     q_limit := n; q_project := q_project c |}.

Definition project (p : projection) (c : cursor) : cursor :=
  {| q_filter := q_filter c; q_sort := q_sort c; q_skip := q_skip c;
     q_limit := q_limit c; q_project := Some p |}.

Definition doc_leb (s : sort_spec) (a b : doc) : bool :=
  match snd s with
  | Asc => value_leb (field (fst s) a) (field (fst s) b)
  | Desc => value_leb (field (fst s) b) (field (fst s) a)
  end.

Section Sorting.
Context {A : Type} (leb : A -> A -> bool).

Fixpoint insert_sorted (x : A) (l : list A) : list A :=
  match l with
  | [] => [x]
  | y :: l' => if leb x y then x :: y :: l' else y :: insert_sorted x l'
  end.

(** An ordering of a result set in which equal keys keep natural order.
    The store promises the key order only, so this is one of the orders a
    sort may return; [may_order] below holds of every one of them. *)
Fixpoint sort_by (l : list A) : list A :=
  match l with
  | [] => []
  | x :: l' => insert_sorted x (sort_by l')
  end.
End Sorting.

Definition sort_docs (s : option sort_spec) (l : list doc) : list doc :=
  match s with
  | Some sp => sort_by (doc_leb sp) l
  | None => l
  end.

Definition take (n : nat) (l : list doc) : list doc :=
  match n with
  | O => l
  | _ => firstn n l
  end.

Definition keeps (p : projection) (k : string) : bool :=
  if String.eqb k "_id" then p_id p
  else existsb (String.eqb k) (p_fields p).

(** Projected documents keep the stored field order. *)
Definition project_doc (p : option projection) (d : doc) : doc :=
  match p with
  | Some pr => List.filter (fun kv => keeps pr (fst kv)) d
  | None => d
  end.

(** The records a cursor selects, before projection. *)
Definition selected (c : cursor) (coll : list doc) : list doc :=
  take (q_limit c)
       (skipn (q_skip c)
              (sort_docs (q_sort c) (List.filter (matches (q_filter c)) coll))).

Definition toArray (c : cursor) (coll : list doc) : list doc :=
  map (project_doc (q_project c)) (selected c coll).

(** The store does not fix the order of records whose sort keys are equal,
    and it chooses anew at every query: any rearrangement of the matching
    records that is in key order may come back. *)
Definition may_order (s : option sort_spec) (l l' : list doc) : Prop :=
  match s with
  | Some sp =>
      Permutation l' l /\ StronglySorted (fun a b => doc_leb sp a b = true) l'
  | None => l' = l
  end.

(** [answers c coll r]: [r] is a result the store may return for the cursor
    [c]; [toArray c coll] is the one among them that keeps natural order
    where the keys are equal. *)
Definition answers (c : cursor) (coll r : list doc) : Prop :=
  exists l' : list doc,
    may_order (q_sort c) (List.filter (matches (q_filter c)) coll) l' /\
    r = map (project_doc (q_project c))
            (take (q_limit c) (skipn (q_skip c) l')).

(** [findOne]: the first match in natural order. *)
Definition findOne (f : filter) (coll : list doc) : option doc :=
  List.find (matches f) coll.

(** [updateOne] with a [$set] patch on the first match. *)
Fixpoint updateOne (f : filter) (k : string) (v : value) (coll : list doc)
  : list doc :=
  match coll with
  | [] => []
  | d :: coll' =>
      if matches f d then set_field k v d :: coll'
      else d :: updateOne f k v coll'
  end.

Fixpoint deleteOne (f : filter) (coll : list doc) : list doc :=
  match coll with
  | [] => []
  | d :: coll' => if matches f d then coll' else d :: deleteOne f coll'
  end.

Definition update_matched (f : filter) (coll : list doc) : nat :=
  match findOne f coll with Some _ => 1 | None => 0 end.

(** A [$set] that writes the value already stored modifies nothing. *)
Definition update_modified (f : filter) (k : string) (v : value)
  (coll : list doc) : nat :=
  match findOne f coll with
  | Some d =>
      match lookup k d with
      | Some old => if value_eqb old v then 0 else 1
      | None => 1
      end
  | None => 0
  end.

Definition delete_count (f : filter) (coll : list doc) : nat :=
  if existsb (matches f) coll then 1 else 0.

(** ** Failures *)

(** What makes a call throw: the message of the error and, for an answer
    of the store, whether the server had carried the call out before it
    rejected it (a timeout or a write-concern error reaches the driver after
    the write). *)
Record error : Type := { message : string; applied : bool }.

Inductive outcome (A : Type) : Type :=
| Ok (a : A)
| Throw (e : error).
Arguments Ok {A} a.
Arguments Throw {A} e.

Definition obind {A B : Type} (o : outcome A) (k : A -> outcome B)
  : outcome B :=
  match o with
  | Ok a => k a
  | Throw e => Throw e
  end.

Fixpoint omap {A B : Type} (f : A -> outcome B) (l : list A)
  : outcome (list B) :=
  match l with
  | [] => Ok []
  | x :: l' =>
      obind (f x) (fun y => obind (omap f l') (fun ys => Ok (y :: ys)))
  end.

(** ** Aggregation pipelines *)

Inductive expr : Type :=
| EField (f : string)                (* "$f" *)
| ELit (v : value)
| ESubtract (a b : expr)             (* { $subtract: [a, b] } *)
| EMod (a b : expr).                 (* { $mod: [a, b] } *)

(** The remainder takes the sign of the dividend. *)
Definition num_mod (x y : Q) : Q :=
  let t := Z.quot (Qnum (x / y)) (Zpos (Qden (x / y))) in
  (x - inject_Z t * y)%Q.

Definition type_error (op : string) : error :=
  {| message := (op ++ " only supports numeric types")%string;
     applied := false |}.

Fixpoint eval (e : expr) (d : doc) : outcome value :=
  match e with
  | EField f => Ok (field f d)
  | ELit v => Ok v
  | ESubtract a b =>
      obind (eval a d) (fun x =>
      obind (eval b d) (fun y =>
        match x, y with
        | VNum p, VNum q => Ok (VNum (p - q)%Q)
        | VNull, (VNull | VNum _) | VNum _, VNull => Ok VNull
        | _, _ => Throw (type_error "$subtract")
        end))
  | EMod a b =>
      obind (eval a d) (fun x =>
      obind (eval b d) (fun y =>
        match x, y with
        | VNum p, VNum q =>
            if Qeq_bool q 0%Q then Throw {| message := "can't $mod by zero"; applied := false |}
            else Ok (VNum (num_mod p q))
        | VNull, (VNull | VNum _) | VNum _, VNull => Ok VNull
        | _, _ => Throw (type_error "$mod")
        end))
  end.

Inductive accumulator : Type :=
| AAvg (e : expr)                    (* { $avg: e } *)
| ASum (e : expr).                   (* { $sum: e } *)

Definition numbers (vs : list value) : list Q :=
  flat_map (fun v => match v with VNum q => [q] | _ => [] end) vs.

Definition total (qs : list Q) : Q := fold_right Qplus 0%Q qs.

(** Accumulators skip the values that are not numbers; the mean of no
    number is null.  [$sum] of the constant 1 is a count and exact.  [$avg]
    is the exact mean here, whereas the store computes it in binary
    floating point: the value of a mean and the order of two rows by their
    means may differ from the store's in the last digit, and no property
    below depends on either. *)
Definition accumulate (a : accumulator) (members : list doc) : outcome value :=
  match a with
  | AAvg e =>
      obind (omap (eval e) members) (fun vs =>
        match numbers vs with
        | [] => Ok VNull
        | qs => Ok (VNum (total qs / inject_Z (Z.of_nat (List.length qs))))
        end)
  | ASum e =>
      obind (omap (eval e) members) (fun vs => Ok (VNum (total (numbers vs))))
  end.

Inductive proj_item : Type :=
| PInclude                           (* f: 1 *)
| PExclude                           (* f: 0 *)
| PExpr (e : expr).                  (* f: <expression> *)

Inductive stage : Type :=
| SGroup (id : expr) (accs : list (string * accumulator))
| SSort (s : sort_spec)
| SLimit (n : nat)
| SProject (items : list (string * proj_item)).

Fixpoint item_of (k : string) (items : list (string * proj_item))
  : option proj_item :=
  match items with
  | [] => None
  | (k', i) :: items' => if String.eqb k k' then Some i else item_of k items'
  end.

(** Members are appended to the bucket with an equal key; a new key opens a
    bucket after the existing ones. *)
Fixpoint add_member (k : value) (d : doc) (gs : list (value * list doc))
  : list (value * list doc) :=
  match gs with
  | [] => [(k, [d])]
  | (k', ds) :: gs' =>
      if value_eqb k k' then (k', ds ++ [d]) :: gs'
      else (k', ds) :: add_member k d gs'
  end.

Definition buckets (keyed : list (value * doc)) : list (value * list doc) :=
  fold_left (fun gs kd => add_member (fst kd) (snd kd) gs) keyed [].

Definition group_doc (accs : list (string * accumulator))
  (g : value * list doc) : outcome doc :=
  obind (omap (fun na => obind (accumulate (snd na) (snd g))
                               (fun v => Ok (fst na, v))) accs)
        (fun fields => Ok (("_id", fst g) :: fields)).

Definition group_stage (id : expr) (accs : list (string * accumulator))
  (l : list doc) : outcome (list doc) :=
  obind (omap (fun d => obind (eval id d) (fun k => Ok (k, d))) l)
        (fun keyed => omap (group_doc accs) (buckets keyed)).

(** [$project]: [_id] unless excluded and the included fields in the
    document's order, then the computed fields in the order of the stage. *)
Definition project_keeps (items : list (string * proj_item)) (k : string)
  : bool :=
  match item_of k items with
  | Some PInclude => true
  | Some _ => false
  | None => String.eqb k "_id"
  end.

Definition computed (items : list (string * proj_item)) (d : doc)
  : outcome doc :=
  omap (fun ke => obind (eval (snd ke) d) (fun v => Ok (fst ke, v)))
       (flat_map (fun ki => match snd ki with
                            | PExpr e => [(fst ki, e)]
                            | _ => []
                            end) items).

Definition project_stage (items : list (string * proj_item)) (d : doc)
  : outcome doc :=
  obind (computed items d) (fun new =>
    Ok (List.filter (fun kv => project_keeps items (fst kv)) d ++ new)).

Definition run_stage (s : stage) (l : list doc) : outcome (list doc) :=
  match s with
  | SGroup id accs => group_stage id accs l
  | SSort sp => Ok (sort_by (doc_leb sp) l)
  | SLimit O =>
      Throw {| message := "the limit must be positive"; applied := false |}
  | SLimit n => Ok (firstn n l)
  | SProject items => omap (project_stage items) l
  end.

Fixpoint aggregate (p : list stage) (l : list doc) : outcome (list doc) :=
  match p with
  | [] => Ok l
  | s :: p' => obind (run_stage s l) (aggregate p')
  end.

(** ** Explain output *)

(** An execution stage: a leaf, or a stage over the input stage it wraps. *)
Inductive stageNode : Type :=
| Leaf (name : string)
| Over (name : string) (input : stageNode).

Definition stage_name (n : stageNode) : string :=
  match n with Leaf s | Over s _ => s end.

Definition inputStage (n : stageNode) : option stageNode :=
  match n with Leaf _ => None | Over _ i => Some i end.

Record execStats : Type := {
  executionTimeMillis : nat;
  totalDocsExamined : nat;
  executionStages : stageNode
}.

Record explainPlan : Type := { executionStats : execStats }.

(** ** The world the script runs in *)

(** What a driver call hands back to [printResult]. *)
Inductive jsresult : Type :=
| Arr (ds : list doc)
| Obj (d : doc)
| Null
| UpdateResult (matchedCount modifiedCount : nat)
| DeleteResult (deletedCount : nat).

Inductive entry : Type :=
| Log (s : string)                     (* console.log(s) *)
| LogJson (ds : list doc)              (* console.log(JSON.stringify(ds, null, 2)) *)
| LogValue (r : jsresult)              (* console.log(r) *)
| LogWith (s arg : string)             (* console.log(s, arg) *)
| ErrorWith (s arg : string)           (* console.error(s, arg) *)
| ErrorObj (s : string) (e : error)    (* console.error(s, err) *)
| ErrorValue (e : error).              (* console.error(err) *)

Definition index_keys : Type := list sort_spec.

Inductive call : Type :=
| CConnect
| CClose
| CToArray (c : cursor)
| CUpdateOne (f : filter) (k : string) (v : value)
| CFindOne (f : filter)
| CDeleteOne (f : filter)
| CAggregate (p : list stage)
| CCreateIndex (keys : index_keys)
| CExplain (f : filter).

Record world : Type := {
  books : list doc;                    (* plp_bookstore.books *)
  indexes : list index_keys;
  console : list entry;
  trace : list call;                   (* driver calls issued so far *)
  faults : list (option error);        (* [Some e]: the next call rejects with e *)
  connected : bool
}.

Definition with_books (b : list doc) (w : world) : world :=
  {| books := b; indexes := indexes w; console := console w;
     trace := trace w; faults := faults w; connected := connected w |}.

Definition with_indexes (i : list index_keys) (w : world) : world :=
  {| books := books w; indexes := i; console := console w;
     trace := trace w; faults := faults w; connected := connected w |}.

Definition with_console (c : list entry) (w : world) : world :=
  {| books := books w; indexes := indexes w; console := c;
     trace := trace w; faults := faults w; connected := connected w |}.

Definition with_connected (b : bool) (w : world) : world :=
  {| books := books w; indexes := indexes w; console := console w;
     trace := trace w; faults := faults w; connected := b |}.

(** Issuing a call records it and consumes one entry of the schedule. *)
Definition issue (c : call) (w : world) : world :=
  {| books := books w; indexes := indexes w; console := console w;
     trace := trace w ++ [c]; faults := tl (faults w);
     connected := connected w |}.

Definition pending (w : world) : option error := hd None (faults w).

Definition M (A : Type) : Type := world -> outcome A * world.

Definition ret {A : Type} (a : A) : M A := fun w => (Ok a, w).

Definition bind {A B : Type} (m : M A) (k : A -> M B) : M B :=
  fun w =>
    match m w with
    | (Ok a, w') => k a w'
    | (Throw e, w') => (Throw e, w')
    end.

Notation "x <- m ;; k" := (bind m (fun x => k))
  (at level 61, m at next level, right associativity).
Notation "m ;; k" := (bind m (fun _ => k))
  (at level 61, right associativity).

(** [await call], for a call that only reads: the store may reject the
    call; otherwise it is served. *)
Definition await {A : Type} (c : call) (serve : M A) : M A :=
  fun w =>
    match pending w with
    | Some e => (Throw e, issue c w)
    | None => serve (issue c w)
    end.

(** [await] for a call that writes: the store may reject it before or
    after carrying it out; a write rejected after it was applied throws and
    leaves its effect in the store. *)
Definition await_write {A : Type} (c : call) (serve : M A) : M A :=
  fun w =>
    match pending w with
    | Some e =>
        (Throw e, if applied e then snd (serve (issue c w)) else issue c w)
    | None => serve (issue c w)
    end.

(** try { body } catch (e) { handler e } *)
Definition try_catch {A : Type} (body : M A) (handler : error -> M A) : M A :=
  fun w =>
    match body w with
    | (Throw e, w') => handler e w'
    | r => r
    end.

(** try { body } catch (e) { handler e } finally { final } *)
Definition try_catch_finally (body : M unit) (handler : error -> M unit)
  (final : M unit) : M unit :=
  fun w =>
    let (r, w1) := try_catch body handler w in
    match final w1 with
    | (Ok _, w2) => (r, w2)
    | (Throw e, w2) => (Throw e, w2)
    end.

Definition console_log (e : entry) : M unit :=
  fun w => (Ok tt, with_console (console w ++ [e]) w).

(** ** Driver calls *)

Definition connect : M unit :=
  await CConnect (fun w => (Ok tt, with_connected true w)).

(** [client.close()] releases the handle; the driver swallows the errors of
    its own cleanup, so the call does not reject. *)
Definition close : M unit :=
  fun w =>
    (Ok tt,
     {| books := books w; indexes := indexes w; console := console w;
        trace := trace w ++ [CClose]; faults := faults w;
        connected := false |}).

Definition await_toArray (c : cursor) : M (list doc) :=
  await (CToArray c) (fun w => (Ok (toArray c (books w)), w)).

Definition await_updateOne (f : filter) (k : string) (v : value)
  : M jsresult :=
  await_write (CUpdateOne f k v)
    (fun w =>
       (Ok (UpdateResult (update_matched f (books w))
                         (update_modified f k v (books w))),
        with_books (updateOne f k v (books w)) w)).

Definition await_findOne (f : filter) : M jsresult :=
  await (CFindOne f)
    (fun w =>
       (Ok (match findOne f (books w) with Some d => Obj d | None => Null end),
        w)).

Definition await_deleteOne (f : filter) : M jsresult :=
  await_write (CDeleteOne f)
    (fun w =>
       (Ok (DeleteResult (delete_count f (books w))),
        with_books (deleteOne f (books w)) w)).

Definition await_aggregate (p : list stage) : M (list doc) :=
  await (CAggregate p)
    (fun w =>
       match aggregate p (books w) with
       | Ok l => (Ok l, w)
       | Throw e => (Throw e, w)
       end).

Definition nat_string (n : nat) : string :=
  NilZero.string_of_uint (Nat.to_uint n).

(** Default index names: key_direction pairs joined by underscores. *)
Fixpoint index_name (keys : index_keys) : string :=
  match keys with
  | [] => ""
  | (k, d) :: keys' =>
      let part := (k ++ match d with Asc => "_1" | Desc => "_-1" end)%string in
      match keys' with
      | [] => part
      | _ => (part ++ "_" ++ index_name keys')%string
      end
  end.

Definition same_keys (a b : index_keys) : bool :=
  String.eqb (index_name a) (index_name b).

(** Creating an index that exists already succeeds and adds nothing. *)
Definition await_createIndex (keys : index_keys) : M string :=
  await_write (CCreateIndex keys)
    (fun w =>
       (Ok (index_name keys),
        if existsb (same_keys keys) (indexes w) then w
        else with_indexes (indexes w ++ [keys]) w)).

(** ** The script *)

Definition nl : string := String (ascii_of_nat 10) EmptyString.

Definition isArray (r : jsresult) : bool :=
  match r with Arr _ => true | _ => false end.

Definition elements (r : jsresult) : list doc :=
  match r with Arr ds => ds | _ => [] end.

(** Helper function to pretty print query results. *)
Definition printResult (title : string) (result : jsresult) : M unit :=
  console_log (Log (nl ++ "--- " ++ title ++ " ---")%string) ;;
  if isArray result then
    if Nat.eqb (List.length (elements result)) 0 then
      console_log (Log "No documents found.")
    else
      console_log (LogJson (elements result))
  else
    console_log (LogValue result).

Definition hobbit : filter := [("title", CEq (VStr "The Hobbit"))].
Definition moby_dick : filter := [("title", CEq (VStr "Moby Dick"))].

Definition fiction_query : cursor :=
  find [("genre", CEq (VStr "Fiction"))].
Definition recent_query : cursor :=
  find [("published_year", CGt (VNum 1950))].
Definition orwell_query : cursor :=
  find [("author", CEq (VStr "George Orwell"))].

(** Task 2: Basic CRUD Operations *)
Definition runTask2 : M unit :=
  console_log (Log (nl ++ "--- Running Task 2: Basic CRUD Operations ---")%string) ;;
  fictionBooks <- await_toArray fiction_query ;;
  printResult "Task 2.1: Find all 'Fiction' books" (Arr fictionBooks) ;;
  recentBooks <- await_toArray recent_query ;;
  printResult "Task 2.2: Find books published after 1950" (Arr recentBooks) ;;
  orwellBooks <- await_toArray orwell_query ;;
  printResult "Task 2.3: Find books by 'George Orwell'" (Arr orwellBooks) ;;
  updateResult <- await_updateOne hobbit "price" (VNum 15.99) ;;
  printResult "Task 2.4: Update price of 'The Hobbit'" updateResult ;;
  updatedHobbit <- await_findOne hobbit ;;
  printResult "Task 2.4: Verifying update for 'The Hobbit'" updatedHobbit ;;
  deleteResult <- await_deleteOne moby_dick ;;
  printResult "Task 2.5: Delete 'Moby Dick'" deleteResult.

Definition in_stock_query : cursor :=
  find [("in_stock", CEq (VBool true)); ("published_year", CGt (VNum 1950))].

Definition projected_query : cursor :=
  project {| p_fields := ["title"; "author"; "price"]; p_id := false |}
          (find []).

Definition sorted_asc_query : cursor :=
  project {| p_fields := ["title"; "price"]; p_id := false |}
          (sort ("price", Asc) (find [])).

Definition sorted_desc_query : cursor :=
  project {| p_fields := ["title"; "price"]; p_id := false |}
          (sort ("price", Desc) (find [])).

Definition page1_query : cursor :=
  project {| p_fields := ["title"; "published_year"]; p_id := false |}
          (limit 5 (skip 0 (sort ("published_year", Asc) (find [])))).

Definition page2_query : cursor :=
  project {| p_fields := ["title"; "published_year"]; p_id := false |}
          (limit 5 (skip 5 (sort ("published_year", Asc) (find [])))).

(** Task 3: Advanced Queries *)
Definition runTask3 : M unit :=
  console_log (Log (nl ++ "--- Running Task 3: Advanced Queries ---")%string) ;;
  inStockAndRecent <- await_toArray in_stock_query ;;
  printResult "Task 3.1: Find in-stock books published after 1950"
              (Arr inStockAndRecent) ;;
  projectedBooks <- await_toArray projected_query ;;
  printResult "Task 3.2: Project title, author, and price"
              (Arr projectedBooks) ;;
  sortedAsc <- await_toArray sorted_asc_query ;;
  printResult "Task 3.3: Sort by price ascending" (Arr sortedAsc) ;;
  sortedDesc <- await_toArray sorted_desc_query ;;
  printResult "Task 3.3: Sort by price descending" (Arr sortedDesc) ;;
  page1 <- await_toArray page1_query ;;
  printResult "Task 3.4: Pagination - Page 1 (5 books)" (Arr page1) ;;
  page2 <- await_toArray page2_query ;;
  printResult "Task 3.4: Pagination - Page 2 (5 books)" (Arr page2).

Definition genre_grouping : stage :=
  SGroup (EField "genre")
         [("averagePrice", AAvg (EField "price"));
          ("bookCount", ASum (ELit (VNum 1)))].

Definition genre_pipeline : list stage :=
  [ genre_grouping; SSort ("averagePrice", Desc) ].

Definition author_grouping : stage :=
  SGroup (EField "author") [("numberOfBooks", ASum (ELit (VNum 1)))].

Definition author_pipeline : list stage :=
  [ author_grouping; SSort ("numberOfBooks", Desc); SLimit 1 ].

Definition decade_key : expr :=
  ESubtract (EField "published_year")
            (EMod (EField "published_year") (ELit (VNum 10))).

Definition decade_grouping : stage :=
  SGroup decade_key [("count", ASum (ELit (VNum 1)))].

Definition decade_pipeline : list stage :=
  [ decade_grouping;
    SSort ("_id", Asc);
    SProject [("decade", PExpr (EField "_id")); ("count", PInclude);
              ("_id", PExclude)] ].

(** Task 4: Aggregation Pipeline *)
Definition runTask4 : M unit :=
  console_log (Log (nl ++ "--- Running Task 4: Aggregation Pipeline ---")%string) ;;
  avgPriceByGenre <- await_aggregate genre_pipeline ;;
  printResult "Task 4.1: Average price by genre" (Arr avgPriceByGenre) ;;
  authorWithMostBooks <- await_aggregate author_pipeline ;;
  printResult "Task 4.2: Author with the most books"
              (Arr authorWithMostBooks) ;;
  booksByDecade <- await_aggregate decade_pipeline ;;
  printResult "Task 4.3: Group books by publication decade"
              (Arr booksByDecade).

(** Helper to analyze and print explain plan *)
Definition analyzePlan (title : string) (explainPlan_ : explainPlan) : M unit :=
  let stats := executionStats explainPlan_ in
  let winningStage := executionStages stats in
  let scanStage :=
    match inputStage winningStage with
    | Some s => s
    | None => winningStage
    end in
  console_log (Log (nl ++ "--- " ++ title ++ " ---")%string) ;;
  console_log (Log ("Execution Time: "
                    ++ nat_string (executionTimeMillis stats) ++ "ms")%string) ;;
  console_log (Log ("Documents Examined: "
                    ++ nat_string (totalDocsExamined stats))%string) ;;
  console_log (Log ("Winning Plan Stage: " ++ stage_name winningStage
                    ++ " -> " ++ stage_name scanStage)%string) ;;
  if String.eqb (stage_name scanStage) "IXSCAN" then
    console_log
      (Log "Analysis: Great! The query used an efficient index scan (IXSCAN).")
  else if String.eqb (stage_name scanStage) "COLLSCAN" then
    console_log
      (Log "Analysis: The query used a collection scan (COLLSCAN). An index was not used.")
  else ret tt.

Definition title_index : index_keys := [("title", Asc)].
Definition compound_index : index_keys :=
  [("author", Asc); ("published_year", Desc)].

Definition title_search : filter := [("title", CEq (VStr "1984"))].
Definition compound_search : filter :=
  [("author", CEq (VStr "George Orwell")); ("published_year", CLt (VNum 1950))].

Section Workflow.

(** The store's query planner: the plan and statistics [explain] reports
    for a filter, given the indexes and the collection. *)
Variable planner : list index_keys -> list doc -> filter -> explainPlan.

Definition await_explain (f : filter) : M explainPlan :=
  await (CExplain f) (fun w => (Ok (planner (indexes w) (books w) f), w)).

(** Task 5: Indexing *)
Definition runTask5 : M unit :=
  console_log (Log (nl ++ "--- Running Task 5: Indexing ---")%string) ;;
  console_log
    (Log "This task creates indexes and analyzes query performance.") ;;
  try_catch
    (titleIndexResult <- await_createIndex title_index ;;
     console_log (LogWith "Task 5.1: Index on 'title' created successfully:"
                          titleIndexResult))
    (fun e => console_log (ErrorWith "Error creating title index:"
                                     (message e))) ;;
  try_catch
    (compoundIndexResult <- await_createIndex compound_index ;;
     console_log
       (LogWith "Task 5.2: Compound index on 'author' and 'published_year' created successfully:"
                compoundIndexResult))
    (fun e => console_log (ErrorWith "Error creating compound index:"
                                     (message e))) ;;
  console_log
    (Log (nl ++ "Task 5.3: Using explain() to analyze query performance")%string) ;;
  explainTitleSearch <- await_explain title_search ;;
  analyzePlan "Explain plan for query on indexed 'title' field"
              explainTitleSearch ;;
  explainCompoundSearch <- await_explain compound_search ;;
  analyzePlan
    "Explain plan for query on compound indexed fields ('author', 'published_year')"
    explainCompoundSearch.

(** The statements of the try block of [main]. *)
Definition workflow : M unit :=
  connect ;;
  console_log (Log "Connected successfully to MongoDB server") ;;
  runTask2 ;;
  runTask3 ;;
  runTask4 ;;
  runTask5.

(** Main function to connect to MongoDB and run all tasks. *)
Definition main : M unit :=
  try_catch_finally
    workflow
    (fun err => console_log (ErrorObj "An error occurred:" err))
    (close ;;
     console_log (Log (nl ++ "Connection to MongoDB closed.")%string)).

(** main().catch(console.error) *)
Definition script : M unit :=
  try_catch main (fun err => console_log (ErrorValue err)).

End Workflow.

(** ** A small bookstore to run the script on *)

Definition book (id : nat) (title author genre : string) (year : Z)
  (price : Q) (in_stock : bool) : doc :=
  [("_id", VId id); ("title", VStr title); ("author", VStr author);
   ("genre", VStr genre); ("published_year", VNum (inject_Z year));
   ("price", VNum price); ("in_stock", VBool in_stock)].

Definition sample_books : list doc :=
  [ book 1 "To Kill a Mockingbird" "Harper Lee" "Fiction" 1960 12.99 true;
    book 2 "1984" "George Orwell" "Dystopian" 1949 10.99 true;
    book 3 "The Great Gatsby" "F. Scott Fitzgerald" "Fiction" 1925 9.99 true;
    book 4 "Brave New World" "Aldous Huxley" "Dystopian" 1932 11.50 false;
    book 5 "The Hobbit" "J.R.R. Tolkien" "Fantasy" 1937 12.50 true;
    book 6 "The Catcher in the Rye" "J.D. Salinger" "Fiction" 1951 8.99 true;
    book 7 "Pride and Prejudice" "Jane Austen" "Romance" 1813 7.99 true;
    book 8 "The Lord of the Rings" "J.R.R. Tolkien" "Fantasy" 1954 19.99 true;
    book 9 "Animal Farm" "George Orwell" "Political Satire" 1945 8.50 false;
    book 10 "The Alchemist" "Paulo Coelho" "Fiction" 1988 10.99 true;
    book 11 "Moby Dick" "Herman Melville" "Adventure" 1851 12.50 false;
    book 12 "Wuthering Heights" "Emily Bronte" "Gothic Fiction" 1847 9.99 true ].

(** Seven books, three of them of the same year. *)
Definition tied_books : list doc :=
  [ book 1 "A" "Ann" "Fiction" 1901 5 true;
    book 2 "B" "Ben" "Fiction" 1902 5 true;
    book 3 "C" "Cyd" "Fiction" 1903 5 true;
    book 4 "D" "Dan" "Fiction" 1904 5 true;
    book 5 "E" "Eve" "Fiction" 1950 5 true;
    book 6 "F" "Fay" "Fiction" 1950 5 true;
    book 7 "G" "Gus" "Fiction" 1950 5 true ].

(** The same books with those of 1950 the other way round: in order of
    year as well. *)
Definition tied_books_reordered : list doc :=
  [ book 1 "A" "Ann" "Fiction" 1901 5 true;
    book 2 "B" "Ben" "Fiction" 1902 5 true;
    book 3 "C" "Cyd" "Fiction" 1903 5 true;
    book 4 "D" "Dan" "Fiction" 1904 5 true;
    book 7 "G" "Gus" "Fiction" 1950 5 true;
    book 6 "F" "Fay" "Fiction" 1950 5 true;
    book 5 "E" "Eve" "Fiction" 1950 5 true ].

(** Two records, one of them with its year stored as text. *)
Definition text_year_books : list doc :=
  [ book 1 "A" "Ann" "Fiction" 1901 5 true;
    [("_id", VId 2); ("title", VStr "B"); ("author", VStr "Ben");
     ("genre", VStr "Fiction"); ("published_year", VStr "1902")] ].

(** A planner that scans an index when one leads with a filtered field. *)
Definition sample_planner (idx : list index_keys) (coll : list doc)
  (f : filter) : explainPlan :=
  let indexed :=
    existsb (fun keys => match keys with
                         | (k, _) :: _ => existsb (fun kc => String.eqb k (fst kc)) f
                         | [] => false
                         end) idx in
  {| executionStats :=
       if indexed then
         {| executionTimeMillis := 0;
            totalDocsExamined := List.length (List.filter (matches f) coll);
            executionStages := Over "FETCH" (Leaf "IXSCAN") |}
       else
         {| executionTimeMillis := 0;
            totalDocsExamined := List.length coll;
            executionStages := Leaf "COLLSCAN" |} |}.

Definition start (coll : list doc) (schedule : list (option error)) : world :=
  {| books := coll; indexes := [[("_id", Asc)]]; console := []; trace := [];
     faults := schedule; connected := false |}.

(** ** Notions the properties are stated with *)

(** The cursor of Task 3.4 with neither skip nor limit: the whole collection
    in ascending order of published_year, projected as the pages are. *)
Definition sorted_query : cursor :=
  project {| p_fields := ["title"; "published_year"]; p_id := false |}
          (sort ("published_year", Asc) (find [])).

Definition ascending (k : string) (a b : doc) : Prop :=
  value_leb (field k a) (field k b) = true.

(** The world after the entries [es] have been written to the console. *)
Definition emit (es : list entry) (w : world) : world :=
  with_console (console w ++ es) w.

(** The section marker [printResult] opens every result with. *)
Definition marker (title : string) : entry :=
  Log (nl ++ "--- " ++ title ++ " ---")%string.

Definition lower (a : ascii) : ascii :=
  let n := nat_of_ascii a in
  if Nat.leb 65 n && Nat.leb n 90 then ascii_of_nat (n + 32)%nat else a.

Fixpoint lowercase (s : string) : string :=
  match s with
  | EmptyString => EmptyString
  | String a s' => String (lower a) (lowercase s')
  end.

(** What [printResult title r] writes. *)
Definition printed (title : string) (r : jsresult) : list entry :=
  [ marker title;
    match r with
    | Arr [] => Log "No documents found."
    | Arr ds => LogJson ds
    | _ => LogValue r
    end ].

Definition reprice : list doc -> list doc :=
  updateOne hobbit "price" (VNum 15.99).

(** The human classification of a scan stage, by its name. *)
Definition verdict (scan : string) : list entry :=
  if String.eqb scan "IXSCAN" then
    [Log "Analysis: Great! The query used an efficient index scan (IXSCAN)."]
  else if String.eqb scan "COLLSCAN" then
    [Log "Analysis: The query used a collection scan (COLLSCAN). An index was not used."]
  else [].

Definition plan (millis examined : nat) (stages : stageNode) : explainPlan :=
  {| executionStats :=
       {| executionTimeMillis := millis; totalDocsExamined := examined;
          executionStages := stages |} |}.

(** The four report lines of [analyzePlan] before the classification. *)
Definition report (title : string) (millis examined : nat)
  (top scan : string) : list entry :=
  [ marker title;
    Log ("Execution Time: " ++ nat_string millis ++ "ms")%string;
    Log ("Documents Examined: " ++ nat_string examined)%string;
    Log ("Winning Plan Stage: " ++ top ++ " -> " ++ scan)%string ].

(** The number of records a filter selects. *)
Definition count (f : filter) (coll : list doc) : nat :=
  List.length (List.filter (matches f) coll).

(** What Task 2 does to one record that stays: the price of 'The Hobbit'. *)
Definition repriced (d : doc) : doc :=
  if matches hobbit d then set_field "price" (VNum 15.99) d else d.

Definition not_moby_dick (d : doc) : bool := negb (matches moby_dick d).

(** A computation that reads the store without changing it. *)
Definition read_only {A : Type} (m : M A) : Prop :=
  forall w : world,
    books (snd (m w)) = books w /\ indexes (snd (m w)) = indexes w.

(** The bucket key of a record: published_year - (published_year mod 10);
    a record without a year falls in the null bucket. *)
Definition decade_of (d : doc) : value :=
  match field "published_year" d with
  | VNum y => VNum (y - num_mod y 10)%Q
  | _ => VNull
  end.

(** The year is a number, or absent. *)
Definition year_ok (d : doc) : bool :=
  match field "published_year" d with
  | VNull | VNum _ => true
  | _ => false
  end.

Definition in_bucket (key : doc -> value) (k : value) (d : doc) : bool :=
  value_eqb (key d) k.

Definition as_count (n : nat) : value := VNum (inject_Z (Z.of_nat n)).

(** An output record of the decade aggregation. *)
Definition decade_row (kn : value * nat) : doc :=
  [("count", as_count (snd kn)); ("decade", fst kn)].

(** The sum of a numeric field over a list of records. *)
Definition sum_field (k : string) (l : list doc) : Q :=
  total (numbers (map (field k) l)).

Definition key_below (a b : value * nat) : Prop :=
  value_ltb (fst a) (fst b) = true.

(** No two keys of the list are equal as values. *)
Definition distinct_keys (ks : list value) : Prop :=
  ForallOrdPairs (fun a b => value_eqb a b = false) ks.

(** The buckets [gs] are what grouping the records [p] by [key] must give:
    distinct keys, each bucket holding, in order, the records of its key and
    named after one of them, and every record in a bucket. *)
Definition grouped (key : doc -> value) (gs : list (value * list doc))
  (p : list doc) : Prop :=
  distinct_keys (map fst gs) /\
  Forall (fun g => snd g = List.filter (in_bucket key (fst g)) p /\
                   exists d, In d p /\ fst g = key d) gs /\
  Forall (fun d => existsb (value_eqb (key d)) (map fst gs) = true) p.

Definition sizes (gs : list (value * list doc)) : nat :=
  list_sum (map (fun g => List.length (snd g)) gs).

Definition counted (name : string) (g : value * list doc) : doc :=
  [("_id", fst g); (name, as_count (List.length (snd g)))].

Definition key_leb (a b : value * list doc) : bool :=
  value_leb (fst a) (fst b).

Definition size_of (g : value * list doc) : value * nat :=
  (fst g, List.length (snd g)).

(** The mean [$avg] reports for the prices of a bucket. *)
Definition mean_price (ds : list doc) : value :=
  match numbers (map (field "price") ds) with
  | [] => VNull
  | qs => VNum (total qs / inject_Z (Z.of_nat (List.length qs)))
  end.

Definition genre_row (g : value * list doc) : doc :=
  [("_id", fst g); ("averagePrice", mean_price (snd g));
   ("bookCount", as_count (List.length (snd g)))].

(** The number of records of a collection, as the number [$sum] yields. *)
Definition records (coll : list doc) : Q :=
  inject_Z (Z.of_nat (List.length coll)).

(** The answer scheduled for the i-th driver call from now (0: the next). *)
Definition fault (i : nat) (w : world) : option error :=
  nth i (faults w) None.

(** Everything [analyzePlan title p] writes. *)
Definition plan_lines (title : string) (p : explainPlan) : list entry :=
  let top := executionStages (executionStats p) in
  let scan := match inputStage top with Some s => s | None => top end in
  report title (executionTimeMillis (executionStats p))
         (totalDocsExamined (executionStats p))
         (stage_name top) (stage_name scan)
  ++ verdict (stage_name scan).

(** The state of the indexes after an attempt to create one. *)
Definition indexed (keys : index_keys) (answer : option error) (w : world)
  : world :=
  match answer with
  | Some e =>
      if applied e then
        if existsb (same_keys keys) (indexes w) then w
        else with_indexes (indexes w ++ [keys]) w
      else w
  | None =>
      if existsb (same_keys keys) (indexes w) then w
      else with_indexes (indexes w ++ [keys]) w
  end.

(** What an index creation of Task 5 reports, given the store's answer. *)
Definition index_line (ok err : string) (keys : index_keys)
  (answer : option error) : entry :=
  match answer with
  | Some e => ErrorWith err (message e)
  | None => LogWith ok (index_name keys)
  end.

Definition title_index_line : option error -> entry :=
  index_line "Task 5.1: Index on 'title' created successfully:"
             "Error creating title index:" title_index.

Definition compound_index_line : option error -> entry :=
  index_line
    "Task 5.2: Compound index on 'author' and 'published_year' created successfully:"
    "Error creating compound index:" compound_index.

(** The world Task 5 has reached when it turns to explain. *)
Definition after_indexes (w : world) : world :=
  emit [Log (nl ++ "Task 5.3: Using explain() to analyze query performance")%string]
    (emit [compound_index_line (fault 1 w)]
       (indexed compound_index (fault 1 w)
          (issue (CCreateIndex compound_index)
             (emit [title_index_line (fault 0 w)]
                (indexed title_index (fault 0 w)
                   (issue (CCreateIndex title_index)
                      (emit [Log (nl ++ "--- Running Task 5: Indexing ---")%string;
                             Log "This task creates indexes and analyzes query performance."]
                         w))))))).

Definition closing_message : entry :=
  Log (nl ++ "Connection to MongoDB closed.")%string.

Definition connected_message : entry :=
  Log "Connected successfully to MongoDB server".

(** A store error used in examples. *)
Definition timeout_error : error :=
  {| message := "operation timed out"; applied := false |}.

(** A rejection that reaches the driver after the server did the write. *)
Definition late_error : error :=
  {| message := "waiting for replication timed out"; applied := true |}.

Definition descending (k : string) (a b : doc) : Prop :=
  value_leb (field k b) (field k a) = true.

(** No two records of the list have equal values in field [k]. *)
Definition distinct_field (k : string) (l : list doc) : Prop :=
  ForallOrdPairs (fun a b => value_eqb (field k a) (field k b) = false) l.

(** Buckets in the order of Task 4.1: the higher mean price first. *)
Definition mean_leb (a b : value * list doc) : bool :=
  value_leb (mean_price (snd b)) (mean_price (snd a)).

(** Buckets in the order of Task 4.2: the larger bucket first. *)
Definition size_leb (a b : value * list doc) : bool :=
  value_leb (as_count (List.length (snd b))) (as_count (List.length (snd a))).

(** The number of records whose author is [a]. *)
Definition books_by (coll : list doc) (a : value) : nat :=
  List.length (List.filter (in_bucket (field "author") a) coll).

(** The driver calls of the tasks, in the order the script makes them. *)
Definition task2_calls : list call :=
  [ CToArray fiction_query; CToArray recent_query; CToArray orwell_query;
    CUpdateOne hobbit "price" (VNum 15.99); CFindOne hobbit;
    CDeleteOne moby_dick ].

Definition task3_calls : list call :=
  [ CToArray in_stock_query; CToArray projected_query;
    CToArray sorted_asc_query; CToArray sorted_desc_query;
    CToArray page1_query; CToArray page2_query ].

Definition task4_calls : list call :=
  [ CAggregate genre_pipeline; CAggregate author_pipeline;
    CAggregate decade_pipeline ].

Definition task5_calls : list call :=
  [ CCreateIndex title_index; CCreateIndex compound_index;
    CExplain title_search; CExplain compound_search ].

Definition script_calls : list call :=
  CConnect :: task2_calls ++ task3_calls ++ task4_calls ++ task5_calls.

(** [m] issues the calls [cs] in this order: all of them when it returns,
    the first few of them when it throws. *)
Definition issues {A : Type} (m : M A) (cs : list call) : Prop :=
  forall w : world,
    exists k : nat,
      k <= List.length cs /\
      trace (snd (m w)) = trace w ++ firstn k cs /\
      (forall a : A, fst (m w) = Ok a -> k = List.length cs).

(** [m] issues no call. *)
Definition quiet {A : Type} (m : M A) : Prop :=
  forall w : world, trace (snd (m w)) = trace w.

(** The collection Task 2 leaves behind, by the answers of the store to its
    six calls (0 to 2: the finds, 3: the update, 4: the verifying read,
    5: the delete). *)
Definition task2_leaves (w : world) : list doc :=
  match fault 0 w, fault 1 w, fault 2 w with
  | None, None, None =>
      match fault 3 w with
      | Some e => if applied e then reprice (books w) else books w
      | None =>
          match fault 4 w with
          | Some _ => reprice (books w)
          | None =>
              match fault 5 w with
              | Some e =>
                  if applied e then deleteOne moby_dick (reprice (books w))
                  else reprice (books w)
              | None => deleteOne moby_dick (reprice (books w))
              end
          end
      end
  | _, _, _ => books w
  end.

(** * Properties *)

(** ** The order on values *)

Lemma ascii_compare_refl (a : ascii) : Ascii.compare a a = Eq.
Proof. unfold Ascii.compare. apply N.compare_refl. Qed.

Lemma string_compare_refl (s : string) : String.compare s s = Eq.
Proof.
  induction s as [|a s IH]; simpl; [reflexivity|].
  now rewrite ascii_compare_refl.
Qed.

Lemma string_compare_eq (s t : string) : String.compare s t = Eq <-> s = t.
Proof.
  split; [apply String.compare_eq_iff|].
  intros ->. apply string_compare_refl.
Qed.

Lemma ascii_compare_lt_trans (a b c : ascii) :
  Ascii.compare a b = Lt -> Ascii.compare b c = Lt -> Ascii.compare a c = Lt.
Proof.
  unfold Ascii.compare. rewrite !N.compare_lt_iff. lia.
Qed.

Lemma string_compare_lt_trans (s t u : string) :
  String.compare s t = Lt -> String.compare t u = Lt -> String.compare s u = Lt.
Proof.
  revert t u. induction s as [|a s IH]; intros [|b t] [|c u]; simpl;
    try discriminate; try reflexivity.
  destruct (Ascii.compare a b) eqn:Eab; try discriminate.
  - apply Ascii.compare_eq_iff in Eab. subst b.
    destruct (Ascii.compare a c); try discriminate; eauto.
  - destruct (Ascii.compare b c) eqn:Ebc; try discriminate.
    + apply Ascii.compare_eq_iff in Ebc. subst c. now rewrite Eab.
    + now rewrite (ascii_compare_lt_trans _ _ _ Eab Ebc).
Qed.

Lemma value_compare_antisym (a b : value) :
  value_compare a b = CompOpp (value_compare b a).
Proof.
  destruct a, b; simpl; try reflexivity.
  - symmetry. apply Qcompare_antisym.
  - apply String.compare_antisym.
  - apply Nat.compare_antisym.
  - now destruct b, b0.
Qed.

Lemma value_compare_refl (a : value) : value_compare a a = Eq.
Proof.
  destruct a; simpl; try reflexivity.
  - now apply Qeq_alt.
  - apply string_compare_refl.
  - apply Nat.compare_refl.
  - now destruct b.
Qed.

(** Values that compare equal compare the same against everything. *)
Lemma value_compare_eq_l (a b c : value) :
  value_compare a b = Eq -> value_compare a c = value_compare b c.
Proof.
  destruct a, b; simpl; try discriminate; intros H; try reflexivity.
  - apply Qeq_alt in H. destruct c; simpl; try reflexivity.
    now rewrite H.
  - apply String.compare_eq_iff in H. now subst.
  - apply Nat.compare_eq in H. now subst.
  - destruct b, b0; try discriminate; reflexivity.
Qed.

Lemma value_compare_eq_r (a b c : value) :
  value_compare a b = Eq -> value_compare c a = value_compare c b.
Proof.
  intros H. rewrite (value_compare_antisym c a), (value_compare_antisym c b).
  now rewrite (value_compare_eq_l a b c H).
Qed.

Lemma value_compare_lt_trans (a b c : value) :
  value_compare a b = Lt -> value_compare b c = Lt -> value_compare a c = Lt.
Proof.
  destruct a, b, c; simpl; try discriminate; try reflexivity.
  - rewrite <- !Qlt_alt. apply Qlt_trans.
  - apply string_compare_lt_trans.
  - rewrite !Nat.compare_lt_iff. lia.
  - now destruct b, b0, b1.
Qed.

Lemma value_eqb_refl (a : value) : value_eqb a a = true.
Proof. unfold value_eqb. now rewrite value_compare_refl. Qed.

Lemma value_eqb_compare (a b : value) :
  value_eqb a b = true <-> value_compare a b = Eq.
Proof. unfold value_eqb. destruct (value_compare a b); intuition discriminate. Qed.

Lemma value_eqb_sym (a b : value) : value_eqb a b = value_eqb b a.
Proof.
  unfold value_eqb. rewrite (value_compare_antisym a b).
  now destruct (value_compare b a).
Qed.

Lemma value_eqb_congr (a b c : value) :
  value_eqb a b = true -> value_eqb a c = value_eqb b c.
Proof.
  rewrite value_eqb_compare. intros H. unfold value_eqb.
  now rewrite (value_compare_eq_l a b c H).
Qed.

Lemma value_leb_total (a b : value) :
  value_leb a b = false -> value_leb b a = true.
Proof.
  unfold value_leb. rewrite (value_compare_antisym b a).
  now destruct (value_compare a b).
Qed.

Lemma value_leb_trans (a b c : value) :
  value_leb a b = true -> value_leb b c = true -> value_leb a c = true.
Proof.
  unfold value_leb.
  destruct (value_compare a b) eqn:Hab; try discriminate; intros _.
  - now rewrite (value_compare_eq_l a b c Hab).
  - destruct (value_compare b c) eqn:Hbc; try discriminate; intros _.
    + now rewrite <- (value_compare_eq_r b c a Hbc), Hab.
    + now rewrite (value_compare_lt_trans a b c Hab Hbc).
Qed.

Lemma value_eqb_str (v : value) (s : string) :
  value_eqb v (VStr s) = true <-> v = VStr s.
Proof.
  split.
  - destruct v; unfold value_eqb; simpl; try discriminate.
    destruct (String.compare s0 s) eqn:E; try discriminate.
    apply String.compare_eq_iff in E. now subst.
  - intros ->. apply value_eqb_refl.
Qed.

(** ** Sorting *)

Section SortingFacts.
Context {A : Type} (leb : A -> A -> bool).
Hypothesis leb_total : forall a b, leb a b = false -> leb b a = true.

Lemma insert_sorted_perm (x : A) (l : list A) :
  Permutation (insert_sorted leb x l) (x :: l).
Proof.
  induction l as [|y l IH]; simpl; [reflexivity|].
  destruct (leb x y); [reflexivity|].
  rewrite IH. apply perm_swap.
Qed.

Lemma sort_by_perm (l : list A) : Permutation (sort_by leb l) l.
Proof.
  induction l as [|x l IH]; simpl; [reflexivity|].
  rewrite insert_sorted_perm. now constructor.
Qed.

Lemma sort_by_length (l : list A) : List.length (sort_by leb l) = List.length l.
Proof. apply Permutation_length, sort_by_perm. Qed.

Lemma insert_sorted_hd (R := fun a b => leb a b = true) (a x : A) (l : list A) :
  R a x -> HdRel R a l -> HdRel R a (insert_sorted leb x l).
Proof.
  intros Hax Hl. destruct l as [|y l]; simpl; [now constructor|].
  destruct (leb x y); constructor; [assumption|].
  now inversion Hl.
Qed.

Lemma insert_sorted_sorted (R := fun a b => leb a b = true) (x : A) (l : list A) :
  Sorted R l -> Sorted R (insert_sorted leb x l).
Proof.
  induction l as [|y l IH]; simpl; intros Hs.
  - repeat constructor.
  - destruct (leb x y) eqn:E.
    + constructor; [assumption|now constructor].
    + apply Sorted_inv in Hs as [Hs Hh].
      constructor; [now apply IH|].
      apply insert_sorted_hd; [|assumption].
      now apply leb_total.
Qed.

Lemma sort_by_sorted (l : list A) :
  Sorted (fun a b => leb a b = true) (sort_by leb l).
Proof.
  induction l as [|x l IH]; simpl; [constructor|].
  now apply insert_sorted_sorted.
Qed.
End SortingFacts.

Lemma sort_by_map {A B : Type} (leb : B -> B -> bool) (f : A -> B) (l : list A) :
  sort_by leb (map f l) = map f (sort_by (fun a b => leb (f a) (f b)) l).
Proof.
  induction l as [|x l IH]; simpl; [reflexivity|].
  rewrite IH. generalize (sort_by (fun a b => leb (f a) (f b)) l) as s.
  induction s as [|y s IHs]; simpl; [reflexivity|].
  destruct (leb (f x) (f y)); simpl; [reflexivity|]. now rewrite IHs.
Qed.

Lemma doc_leb_total (s : sort_spec) (a b : doc) :
  doc_leb s a b = false -> doc_leb s b a = true.
Proof. unfold doc_leb. destruct (snd s); apply value_leb_total. Qed.

(** ** Pages *)

Lemma firstn_pages {A : Type} (n m : nat) (l : list A) :
  firstn n l ++ firstn m (skipn n l) = firstn (n + m) l.
Proof.
  revert l. induction n as [|n IH]; intros l; simpl; [reflexivity|].
  destruct l as [|x l]; simpl.
  - now rewrite firstn_nil.
  - now rewrite IH.
Qed.

Lemma matches_nil (d : doc) : matches [] d = true.
Proof. reflexivity. Qed.

Lemma filter_all {A : Type} (p : A -> bool) (l : list A) :
  (forall x, p x = true) -> List.filter p l = l.
Proof.
  intros H. induction l as [|x l IH]; simpl; [reflexivity|].
  now rewrite H, IH.
Qed.

Lemma In_firstn {A : Type} (n : nat) (x : A) (l : list A) :
  In x (firstn n l) -> In x l.
Proof.
  revert l. induction n as [|n IH]; intros [|y l]; simpl; try tauto.
  intros [->|H]; [now left|right; now apply IH].
Qed.

Lemma NoDup_firstn {A : Type} (n : nat) (l : list A) :
  NoDup l -> NoDup (firstn n l).
Proof.
  revert l. induction n as [|n IH]; intros l Hl; simpl; [constructor|].
  destruct l as [|x l]; [constructor|].
  inversion Hl; subst. constructor; [|now apply IH].
  intros Hin. now apply In_firstn in Hin.
Qed.

(** ** Running the monad *)

Lemma bind_ok {A B : Type} (m : M A) (k : A -> M B) (w w' : world) (a : A) :
  m w = (Ok a, w') -> bind m k w = k a w'.
Proof. unfold bind. now intros ->. Qed.

Lemma bind_throw {A B : Type} (m : M A) (k : A -> M B) (w w' : world)
  (e : error) :
  m w = (Throw e, w') -> bind m k w = (Throw e, w').
Proof. unfold bind. now intros ->. Qed.

Lemma console_log_run (e : entry) (w : world) :
  console_log e w = (Ok tt, emit [e] w).
Proof. reflexivity. Qed.

Lemma emit_emit (es es' : list entry) (w : world) :
  emit es' (emit es w) = emit (es ++ es') w.
Proof. unfold emit, with_console; simpl. now rewrite app_assoc. Qed.

(** ** printResult *)

(** C9. A result set, that is an array: the empty one prints, under its
    section marker, the notice [No documents found.] (the words
    no documents found, capitalised and closed by a full stop); one with
    records prints the indented JSON dump of the records.  Nothing else in
    the world changes. *)
Theorem printResult_result_set (title : string) (w : world) :
  printResult title (Arr []) w
  = (Ok tt, emit [marker title; Log "No documents found."] w) /\
  (forall (d : doc) (ds : list doc),
      printResult title (Arr (d :: ds)) w
      = (Ok tt, emit [marker title; LogJson (d :: ds)] w)) /\
  String.prefix "no documents found" (lowercase "No documents found.") = true.
Proof.
  repeat split; intros; unfold printResult; simpl;
    erewrite bind_ok by apply console_log_run;
    rewrite console_log_run, emit_emit; reflexivity.
Qed.

Lemma printResult_run (title : string) (r : jsresult) (w : world) :
  printResult title r w = (Ok tt, emit (printed title r) w).
Proof.
  unfold printResult. erewrite bind_ok by apply console_log_run.
  destruct r as [[|d ds]| | | |]; simpl;
    rewrite console_log_run, emit_emit; reflexivity.
Qed.

Lemma await_run {A : Type} (c : call) (serve : M A) (w : world) :
  pending w = None -> await c serve w = serve (issue c w).
Proof. unfold await. now intros ->. Qed.

Lemma await_reject {A : Type} (c : call) (serve : M A) (w : world) (e : error) :
  pending w = Some e -> await c serve w = (Throw e, issue c w).
Proof. unfold await. now intros ->. Qed.

Lemma await_write_run {A : Type} (c : call) (serve : M A) (w : world) :
  pending w = None -> await_write c serve w = serve (issue c w).
Proof. unfold await_write. now intros ->. Qed.

Lemma await_write_reject {A : Type} (c : call) (serve : M A) (w : world)
  (e : error) :
  pending w = Some e ->
  await_write c serve w
  = (Throw e, if applied e then snd (serve (issue c w)) else issue c w).
Proof. unfold await_write. now intros ->. Qed.

Lemma await_toArray_run (c : cursor) (w : world) :
  pending w = None ->
  await_toArray c w = (Ok (toArray c (books w)), issue (CToArray c) w).
Proof. intros H. unfold await_toArray. now rewrite await_run. Qed.

Lemma await_updateOne_run (f : filter) (k : string) (v : value) (w : world) :
  pending w = None ->
  await_updateOne f k v w
  = (Ok (UpdateResult (update_matched f (books w))
                      (update_modified f k v (books w))),
     with_books (updateOne f k v (books w)) (issue (CUpdateOne f k v) w)).
Proof. intros H. unfold await_updateOne. now rewrite await_write_run. Qed.

Lemma await_findOne_run (f : filter) (w : world) :
  pending w = None ->
  await_findOne f w
  = (Ok (match findOne f (books w) with Some d => Obj d | None => Null end),
     issue (CFindOne f) w).
Proof. intros H. unfold await_findOne. now rewrite await_run. Qed.

Lemma await_deleteOne_run (f : filter) (w : world) :
  pending w = None ->
  await_deleteOne f w
  = (Ok (DeleteResult (delete_count f (books w))),
     with_books (deleteOne f (books w)) (issue (CDeleteOne f) w)).
Proof. intros H. unfold await_deleteOne. now rewrite await_write_run. Qed.

(** Bring a world built by [emit], [issue] and the setters back to a
    record. *)
Ltac settle :=
  unfold emit, issue, with_console, with_books, with_indexes, with_connected;
  cbn [books indexes console trace faults connected tl].

Ltac run_prim :=
  first [ apply console_log_run
        | apply printResult_run
        | apply await_toArray_run; reflexivity
        | apply await_updateOne_run; reflexivity
        | apply await_findOne_run; reflexivity
        | apply await_deleteOne_run; reflexivity ].

(** A run of Task 2 that the store does not interrupt. *)
Lemma runTask2_run (w : world) :
  faults w = [] ->
  exists before : list entry,
    runTask2 w
    = (Ok tt,
       {| books := deleteOne moby_dick (reprice (books w));
          indexes := indexes w;
          console :=
            console w ++ before
            ++ printed "Task 2.4: Update price of 'The Hobbit'"
                 (UpdateResult
                    (update_matched hobbit (books w))
                    (update_modified hobbit "price" (VNum 15.99) (books w)))
            ++ printed "Task 2.4: Verifying update for 'The Hobbit'"
                 (match findOne hobbit (reprice (books w)) with
                  | Some d => Obj d
                  | None => Null
                  end)
            ++ printed "Task 2.5: Delete 'Moby Dick'"
                 (DeleteResult (delete_count moby_dick (reprice (books w))));
          trace :=
            trace w
            ++ [ CToArray fiction_query; CToArray recent_query;
                 CToArray orwell_query;
                 CUpdateOne hobbit "price" (VNum 15.99);
                 CFindOne hobbit; CDeleteOne moby_dick ];
          faults := [];
          connected := connected w |}).
Proof.
  intros Hf. destruct w as [b i c t f cn]; simpl in Hf; subst f.
  exists (Log (nl ++ "--- Running Task 2: Basic CRUD Operations ---")%string
          :: printed "Task 2.1: Find all 'Fiction' books"
               (Arr (toArray fiction_query b))
          ++ printed "Task 2.2: Find books published after 1950"
               (Arr (toArray recent_query b))
          ++ printed "Task 2.3: Find books by 'George Orwell'"
               (Arr (toArray orwell_query b))).
  unfold runTask2.
  repeat (erewrite bind_ok by run_prim; settle).
  rewrite printResult_run; settle.
  unfold reprice. rewrite <- !app_assoc. reflexivity.
Qed.

Lemma updateOne_no_match (f : filter) (k : string) (v : value)
  (coll : list doc) :
  findOne f coll = None -> updateOne f k v coll = coll.
Proof.
  unfold findOne. induction coll as [|d coll IH]; simpl; [reflexivity|].
  destruct (matches f d); [discriminate|].
  intros H. now rewrite IH.
Qed.

(** C10. [printResult] reserves the empty-set notice for arrays: any other
    result (the update result, the delete result, the record or the null of a
    single-record read) is printed as the value it is.  In Task 2, when no
    record is titled 'The Hobbit', the verification read prints null under
    its marker, and the next thing printed is the marker of the delete. *)
Theorem printResult_non_array (title : string) (r : jsresult) (w : world) :
  (isArray r = false ->
   printResult title r w = (Ok tt, emit [marker title; LogValue r] w)) /\
  (faults w = [] -> findOne hobbit (books w) = None ->
   exists before : list entry,
     console (snd (runTask2 w))
     = console w ++ before
       ++ [ marker "Task 2.4: Verifying update for 'The Hobbit'";
            LogValue Null;
            marker "Task 2.5: Delete 'Moby Dick'";
            LogValue (DeleteResult (delete_count moby_dick (books w))) ]).
Proof.
  split.
  - intros Hr. rewrite printResult_run.
    destruct r; try discriminate; reflexivity.
  - intros Hf Hn. destruct (runTask2_run w Hf) as [before ->].
    unfold reprice. rewrite (updateOne_no_match _ _ _ _ Hn), Hn.
    exists (before
            ++ printed "Task 2.4: Update price of 'The Hobbit'"
                 (UpdateResult
                    (update_matched hobbit (books w))
                    (update_modified hobbit "price" (VNum 15.99) (books w)))).
    cbn [snd console]. rewrite <- !app_assoc. reflexivity.
Qed.

Lemma printResult_non_array_witness :
  isArray Null = false /\
  faults (start (deleteOne hobbit sample_books) []) = [] /\
  findOne hobbit (books (start (deleteOne hobbit sample_books) [])) = None /\
  printResult "Task 2.4: Verifying update for 'The Hobbit'" Null
    (start (deleteOne hobbit sample_books) [])
  = (Ok tt,
     emit [ marker "Task 2.4: Verifying update for 'The Hobbit'";
            LogValue Null ]
          (start (deleteOne hobbit sample_books) [])) /\
  exists before : list entry,
    console (snd (runTask2 (start (deleteOne hobbit sample_books) [])))
    = console (start (deleteOne hobbit sample_books) []) ++ before
      ++ [ marker "Task 2.4: Verifying update for 'The Hobbit'";
           LogValue Null;
           marker "Task 2.5: Delete 'Moby Dick'";
           LogValue
             (DeleteResult
                (delete_count moby_dick
                   (books (start (deleteOne hobbit sample_books) [])))) ].
Proof.
  split; [reflexivity|]. split; [reflexivity|]. split; [reflexivity|].
  split.
  - apply (printResult_non_array _ Null); reflexivity.
  - apply (printResult_non_array "" Null); reflexivity.
Defined.

(** ** analyzePlan *)

Lemma analyzePlan_run (title : string) (p : explainPlan) (w : world) :
  analyzePlan title p w
  = (Ok tt,
     emit (report title
             (executionTimeMillis (executionStats p))
             (totalDocsExamined (executionStats p))
             (stage_name (executionStages (executionStats p)))
             (stage_name
                match inputStage (executionStages (executionStats p)) with
                | Some s => s
                | None => executionStages (executionStats p)
                end)
           ++ verdict
                (stage_name
                   match inputStage (executionStages (executionStats p)) with
                   | Some s => s
                   | None => executionStages (executionStats p)
                   end)) w).
Proof.
  unfold analyzePlan, verdict, report, marker.
  repeat (erewrite bind_ok by apply console_log_run).
  rewrite !emit_emit.
  destruct (String.eqb _ "IXSCAN"); [|destruct (String.eqb _ "COLLSCAN")];
    unfold ret; rewrite ?console_log_run, ?emit_emit; simpl; reflexivity.
Qed.

(** C1. [analyzePlan] reads the top-level execution stage of the explain
    result.  A stage that wraps no input is its own scan stage; a stage that
    wraps an input stage hands over to that input, one level down and no
    further, whatever the input wraps in turn.  It prints the elapsed time,
    the documents examined and the chain of the two stage names, and then the
    classification of the scan stage: the index-scan line for IXSCAN, the
    collection-scan line for COLLSCAN, and no line for any other name. *)
Theorem analyzePlan_report (title : string) (millis examined : nat)
  (w : world) :
  (forall top : string,
      analyzePlan title (plan millis examined (Leaf top)) w
      = (Ok tt, emit (report title millis examined top top ++ verdict top) w)) /\
  (forall (top : string) (inner : stageNode),
      analyzePlan title (plan millis examined (Over top inner)) w
      = (Ok tt,
         emit (report title millis examined top (stage_name inner)
               ++ verdict (stage_name inner)) w)) /\
  verdict "IXSCAN"
  = [Log "Analysis: Great! The query used an efficient index scan (IXSCAN)."] /\
  verdict "COLLSCAN"
  = [Log "Analysis: The query used a collection scan (COLLSCAN). An index was not used."] /\
  (forall scan : string,
      scan <> "IXSCAN" -> scan <> "COLLSCAN" -> verdict scan = []).
Proof.
  repeat split; intros; try apply analyzePlan_run.
  unfold verdict.
  destruct (String.eqb_spec scan "IXSCAN"); [contradiction|].
  destruct (String.eqb_spec scan "COLLSCAN"); [contradiction|reflexivity].
Qed.

Lemma analyzePlan_report_witness :
  analyzePlan "q" (plan 3 12 (Over "LIMIT" (Over "FETCH" (Leaf "IXSCAN"))))
              (start [] [])
  = (Ok tt,
     emit [ marker "q"; Log "Execution Time: 3ms";
            Log "Documents Examined: 12";
            Log "Winning Plan Stage: LIMIT -> FETCH" ] (start [] [])) /\
  verdict "FETCH" = [].
Proof.
  split.
  - apply (analyzePlan_report "q" 3 12 (start [] [])).
  - apply (analyzePlan_report "q" 3 12 (start [] [])); discriminate.
Defined.

(** ** Documents and single-record updates *)

Lemma lookup_set_same (k : string) (v : value) (d : doc) :
  lookup k (set_field k v d) = Some v.
Proof.
  induction d as [|[k' v'] d IH]; simpl.
  - now rewrite String.eqb_refl.
  - destruct (String.eqb k k') eqn:E; simpl; now rewrite E.
Qed.

Lemma lookup_set_other (k k' : string) (v : value) (d : doc) :
  k' <> k -> lookup k' (set_field k v d) = lookup k' d.
Proof.
  intros Hk. induction d as [|[k0 v0] d IH]; simpl.
  - apply String.eqb_neq in Hk. now rewrite Hk.
  - destruct (String.eqb k k0) eqn:E; simpl.
    + apply String.eqb_eq in E. subst k0.
      apply String.eqb_neq in Hk. now rewrite Hk.
    + now rewrite IH.
Qed.

Lemma field_set_other (k k' : string) (v : value) (d : doc) :
  k' <> k -> field k' (set_field k v d) = field k' d.
Proof. intros Hk. unfold field. now rewrite lookup_set_other. Qed.

Lemma set_field_twice (k : string) (v : value) (d : doc) :
  set_field k v (set_field k v d) = set_field k v d.
Proof.
  induction d as [|[k' v'] d IH]; simpl.
  - now rewrite String.eqb_refl.
  - destruct (String.eqb k k') eqn:E; simpl; rewrite E; [reflexivity|].
    now rewrite IH.
Qed.

(** A filter on the title alone does not see a change of the price. *)
Lemma matches_title_set_price (t : string) (v : value) (d : doc) :
  matches [("title", CEq (VStr t))] (set_field "price" v d)
  = matches [("title", CEq (VStr t))] d.
Proof.
  unfold matches; simpl. now rewrite field_set_other by discriminate.
Qed.

Lemma matches_title (t : string) (d : doc) :
  matches [("title", CEq (VStr t))] d = true <-> field "title" d = VStr t.
Proof.
  unfold matches; simpl. rewrite andb_true_r. apply value_eqb_str.
Qed.

Section UpdateOne.
Variables (f : filter) (k : string) (v : value).
Hypothesis blind : forall d, matches f (set_field k v d) = matches f d.

Lemma findOne_updateOne (coll : list doc) :
  findOne f (updateOne f k v coll)
  = option_map (set_field k v) (findOne f coll).
Proof.
  unfold findOne. induction coll as [|d coll IH]; simpl; [reflexivity|].
  destruct (matches f d) eqn:E; simpl.
  - now rewrite blind, E.
  - now rewrite E.
Qed.

Lemma updateOne_twice (coll : list doc) :
  updateOne f k v (updateOne f k v coll) = updateOne f k v coll.
Proof.
  induction coll as [|d coll IH]; simpl; [reflexivity|].
  destruct (matches f d) eqn:E; simpl.
  - now rewrite blind, E, set_field_twice.
  - now rewrite E, IH.
Qed.
End UpdateOne.

Lemma findOne_some (f : filter) (coll : list doc) (d : doc) :
  In d coll -> matches f d = true ->
  exists d0, findOne f coll = Some d0 /\ In d0 coll /\ matches f d0 = true.
Proof.
  unfold findOne. induction coll as [|x coll IH]; simpl; [tauto|].
  intros Hin Hm. destruct (matches f x) eqn:E.
  - exists x. auto.
  - destruct Hin as [->|Hin]; [congruence|].
    destruct (IH Hin Hm) as (d0 & H0 & Hi & Hm0). exists d0. auto.
Qed.

(** C5. On a collection holding a record titled 'The Hobbit', the update by
    title of Task 2.4 followed by the read by the same title returns a
    record, still titled 'The Hobbit', whose price is 15.99; Task 2 prints
    that record under the verification marker.  Applying the update a second
    time yields the very same collection, so every later read (any cursor,
    any single-record read) returns what it returned after the first. *)
Theorem hobbit_price_update (w : world) (d : doc) :
  faults w = [] ->
  In d (books w) ->
  field "title" d = VStr "The Hobbit" ->
  exists d' : doc,
    (await_updateOne hobbit "price" (VNum 15.99) ;; await_findOne hobbit) w
    = (Ok (Obj d'),
       issue (CFindOne hobbit)
         (with_books (reprice (books w))
            (issue (CUpdateOne hobbit "price" (VNum 15.99)) w))) /\
    lookup "price" d' = Some (VNum 15.99) /\
    field "title" d' = VStr "The Hobbit" /\
    (exists before after : list entry,
        console (snd (runTask2 w))
        = console w ++ before
          ++ [ marker "Task 2.4: Verifying update for 'The Hobbit'";
               LogValue (Obj d') ] ++ after) /\
    reprice (reprice (books w)) = reprice (books w) /\
    (forall c : cursor,
        toArray c (reprice (reprice (books w))) = toArray c (reprice (books w))) /\
    (forall f : filter,
        findOne f (reprice (reprice (books w))) = findOne f (reprice (books w))).
Proof.
  intros Hf Hin Ht.
  assert (Hm : matches hobbit d = true) by now apply matches_title.
  destruct (findOne_some hobbit (books w) d Hin Hm) as (d0 & H0 & _ & Hm0).
  assert (Hr : findOne hobbit (reprice (books w))
               = Some (set_field "price" (VNum 15.99) d0)).
  { unfold reprice. rewrite findOne_updateOne.
    - now rewrite H0.
    - intros x. apply matches_title_set_price. }
  assert (Hi : reprice (reprice (books w)) = reprice (books w)).
  { unfold reprice. apply updateOne_twice.
    intros x. apply matches_title_set_price. }
  exists (set_field "price" (VNum 15.99) d0). repeat split.
  - erewrite bind_ok.
    2:{ apply await_updateOne_run. unfold pending. now rewrite Hf. }
    rewrite await_findOne_run.
    + simpl. fold reprice. now rewrite Hr.
    + unfold pending; simpl. now rewrite Hf.
  - apply lookup_set_same.
  - rewrite field_set_other by discriminate. now apply matches_title.
  - destruct (runTask2_run w Hf) as [before ->]. simpl. rewrite Hr.
    exists (before
            ++ printed "Task 2.4: Update price of 'The Hobbit'"
                 (UpdateResult
                    (update_matched hobbit (books w))
                    (update_modified hobbit "price" (VNum 15.99) (books w)))).
    eexists. rewrite <- !app_assoc. reflexivity.
  - exact Hi.
  - intros c. now rewrite Hi.
  - intros f. now rewrite Hi.
Qed.

Lemma filter_none_map {A : Type} (p : A -> bool) (g : A -> A) (l : list A) :
  List.length (List.filter p l) = 0 ->
  map (fun x => if p x then g x else x) l = l.
Proof.
  induction l as [|x l IH]; simpl; [reflexivity|].
  destruct (p x); simpl; [discriminate|].
  intros H. now rewrite IH.
Qed.

Lemma filter_none_negb {A : Type} (p : A -> bool) (l : list A) :
  List.length (List.filter p l) = 0 ->
  List.filter (fun x => negb (p x)) l = l.
Proof.
  induction l as [|x l IH]; simpl; [reflexivity|].
  destruct (p x); simpl; [discriminate|].
  intros H. now rewrite IH.
Qed.

Lemma filter_split_length {A : Type} (p : A -> bool) (l : list A) :
  List.length (List.filter p l) + List.length (List.filter (fun x => negb (p x)) l)
  = List.length l.
Proof.
  induction l as [|x l IH]; simpl; [reflexivity|].
  destruct (p x); simpl; lia.
Qed.

Lemma updateOne_single (f : filter) (k : string) (v : value) (coll : list doc) :
  count f coll <= 1 ->
  updateOne f k v coll
  = map (fun d => if matches f d then set_field k v d else d) coll.
Proof.
  unfold count. induction coll as [|d coll IH]; simpl; [reflexivity|].
  destruct (matches f d); simpl; intros H.
  - now rewrite filter_none_map by lia.
  - now rewrite IH.
Qed.

Lemma deleteOne_single (f : filter) (coll : list doc) :
  count f coll <= 1 ->
  deleteOne f coll = List.filter (fun d => negb (matches f d)) coll.
Proof.
  unfold count. induction coll as [|d coll IH]; simpl; [reflexivity|].
  destruct (matches f d); simpl; intros H.
  - now rewrite filter_none_negb by lia.
  - now rewrite IH.
Qed.

Lemma matches_moby_repriced (d : doc) :
  matches moby_dick (repriced d) = matches moby_dick d.
Proof.
  unfold repriced. destruct (matches hobbit d); [|reflexivity].
  apply matches_title_set_price.
Qed.

Lemma filter_map_repriced (p : doc -> bool) (coll : list doc) :
  (forall d, p (repriced d) = p d) ->
  List.filter p (map repriced coll) = map repriced (List.filter p coll).
Proof.
  intros H. induction coll as [|d coll IH]; simpl; [reflexivity|].
  rewrite H. destruct (p d); simpl; now rewrite IH.
Qed.

(** *** Computations that leave the store alone *)

Lemma read_only_bind {A B : Type} (m : M A) (k : A -> M B) :
  read_only m -> (forall a, read_only (k a)) -> read_only (bind m k).
Proof.
  intros Hm Hk w. unfold bind. specialize (Hm w).
  destruct (m w) as [[a|e] w']; simpl in *; [|assumption].
  destruct (Hk a w') as [H1 H2]. destruct Hm as [H3 H4].
  split; congruence.
Qed.

Lemma read_only_console_log (e : entry) : read_only (console_log e).
Proof. intros w. now split. Qed.

Lemma read_only_ret {A : Type} (a : A) : read_only (ret a).
Proof. intros w. now split. Qed.

Lemma read_only_printResult (title : string) (r : jsresult) :
  read_only (printResult title r).
Proof. intros w. rewrite printResult_run. now split. Qed.

Lemma read_only_await {A : Type} (c : call) (serve : M A) :
  read_only serve -> read_only (await c serve).
Proof.
  intros Hs w. unfold await. destruct (pending w); [now split|].
  apply (Hs (issue c w)).
Qed.

Lemma read_only_toArray (c : cursor) : read_only (await_toArray c).
Proof. apply read_only_await. intros w. now split. Qed.

Lemma read_only_aggregate (p : list stage) : read_only (await_aggregate p).
Proof.
  apply read_only_await. intros w.
  destruct (aggregate p (books w)); now split.
Qed.

Lemma read_only_analyzePlan (title : string) (p : explainPlan) :
  read_only (analyzePlan title p).
Proof. intros w. rewrite analyzePlan_run. now split. Qed.

Create HintDb frame.
#[local] Hint Resolve read_only_console_log read_only_ret
  read_only_printResult read_only_toArray read_only_aggregate
  read_only_analyzePlan : frame.

Ltac frame :=
  repeat first [ solve [auto with frame] | apply read_only_bind; [|intros ?] ].

Lemma read_only_runTask3 : read_only runTask3.
Proof. unfold runTask3. frame. Qed.

Lemma read_only_runTask4 : read_only runTask4.
Proof. unfold runTask4. frame. Qed.

Lemma toArray_find (f : filter) (coll : list doc) :
  toArray (find f) coll = List.filter (matches f) coll.
Proof.
  unfold toArray, selected, find; simpl. apply map_id.
Qed.

Lemma filter_negb_none {A : Type} (p : A -> bool) (l : list A) :
  List.filter p (List.filter (fun x => negb (p x)) l) = [].
Proof.
  induction l as [|x l IH]; simpl; [reflexivity|].
  destruct (p x) eqn:E; simpl; [assumption|]. now rewrite E.
Qed.

Lemma lookup_repriced (k : string) (d : doc) :
  k <> "price" -> lookup k (repriced d) = lookup k d.
Proof.
  intros Hk. unfold repriced. destruct (matches hobbit d); [|reflexivity].
  now apply lookup_set_other.
Qed.

Lemma task2_books (coll : list doc) :
  count hobbit coll = 1 -> count moby_dick coll = 1 ->
  deleteOne moby_dick (reprice coll)
  = map repriced (List.filter not_moby_dick coll).
Proof.
  intros Hh Hm. unfold reprice.
  rewrite updateOne_single by lia. fold repriced.
  assert (Hc : count moby_dick (map repriced coll) = 1).
  { unfold count.
    rewrite (filter_map_repriced _ _ matches_moby_repriced), length_map.
    exact Hm. }
  rewrite deleteOne_single by lia.
  apply (filter_map_repriced (fun d => negb (matches moby_dick d))).
  intros d. now rewrite matches_moby_repriced.
Qed.

(** C6. On a collection with exactly one record titled 'The Hobbit' and
    exactly one titled 'Moby Dick', a run of Task 2 leaves the records other
    than 'Moby Dick', in their order, with 'The Hobbit' carrying the new
    price: one record fewer, none titled 'Moby Dick', the same identifiers as
    the records kept, every record not titled 'The Hobbit' untouched and
    every field of 'The Hobbit' other than the price as it was.  The indexes
    are untouched.  Tasks 3 and 4 change neither the collection nor the
    indexes, whatever the store answers. *)
Theorem task2_frame (w : world) :
  faults w = [] ->
  count hobbit (books w) = 1 ->
  count moby_dick (books w) = 1 ->
  fst (runTask2 w) = Ok tt /\
  books (snd (runTask2 w))
  = map repriced (List.filter not_moby_dick (books w)) /\
  List.length (books (snd (runTask2 w))) + 1 = List.length (books w) /\
  toArray (find moby_dick) (books (snd (runTask2 w))) = [] /\
  map (lookup "_id") (books (snd (runTask2 w)))
  = map (lookup "_id") (List.filter not_moby_dick (books w)) /\
  indexes (snd (runTask2 w)) = indexes w /\
  (forall d : doc, matches hobbit d = false -> repriced d = d) /\
  (forall d : doc, matches hobbit d = true ->
                   lookup "price" (repriced d) = Some (VNum 15.99)) /\
  (forall (d : doc) (k : string),
      k <> "price" -> lookup k (repriced d) = lookup k d) /\
  read_only runTask3 /\
  read_only runTask4.
Proof.
  intros Hf Hh Hm.
  destruct (runTask2_run w Hf) as [before ->]. cbn [fst snd books indexes].
  rewrite (task2_books _ Hh Hm).
  repeat split.
  - rewrite length_map.
    pose proof (filter_split_length (matches moby_dick) (books w)) as Hs.
    unfold count in Hm. unfold not_moby_dick. lia.
  - rewrite toArray_find.
    rewrite (filter_map_repriced _ _ matches_moby_repriced).
    unfold not_moby_dick. now rewrite filter_negb_none.
  - rewrite map_map. apply map_ext. intros d.
    now apply lookup_repriced.
  - intros d Hd. unfold repriced. now rewrite Hd.
  - intros d Hd. unfold repriced. rewrite Hd. apply lookup_set_same.
  - intros d k Hk. now apply lookup_repriced.
  - apply read_only_runTask3.
  - apply read_only_runTask3.
  - apply read_only_runTask4.
  - apply read_only_runTask4.
Qed.

(** ** Grouping *)

Lemma add_member_spec (k : value) (d : doc) (gs : list (value * list doc)) :
  distinct_keys (map fst gs) ->
  add_member k d gs
  = if existsb (value_eqb k) (map fst gs)
    then map (fun g => if value_eqb k (fst g)
                       then (fst g, snd g ++ [d]) else g) gs
    else gs ++ [(k, [d])].
Proof.
  induction gs as [|[k' ds] gs IH]; simpl; intros Hd; [reflexivity|].
  inversion Hd as [|a l Hk' Hrest]; subst.
  destruct (value_eqb k k') eqn:E; simpl.
  - f_equal. symmetry. rewrite <- (map_id gs) at 2. apply map_ext_in.
    intros g Hg. rewrite (value_eqb_congr k k' (fst g) E).
    rewrite Forall_forall in Hk'. rewrite (Hk' (fst g)); [reflexivity|].
    now apply in_map.
  - rewrite (IH Hrest). now destruct (existsb (value_eqb k) (map fst gs)).
Qed.

Lemma add_member_sizes (k : value) (d : doc) (gs : list (value * list doc)) :
  sizes (add_member k d gs) = S (sizes gs).
Proof.
  unfold sizes. induction gs as [|[k' ds] gs IH]; simpl; [reflexivity|].
  destruct (value_eqb k k'); simpl.
  - rewrite length_app; simpl. lia.
  - rewrite IH. lia.
Qed.

Lemma buckets_sizes (keyed : list (value * doc)) :
  sizes (buckets keyed) = List.length keyed.
Proof.
  unfold buckets.
  assert (H : forall gs, sizes (fold_left
                 (fun gs kd => add_member (fst kd) (snd kd) gs) keyed gs)
              = sizes gs + List.length keyed).
  { induction keyed as [|kd keyed IH]; intros gs; simpl; [lia|].
    rewrite IH, add_member_sizes. lia. }
  now rewrite H.
Qed.

Lemma distinct_keys_snoc (ks : list value) (k : value) :
  distinct_keys ks -> existsb (value_eqb k) ks = false ->
  distinct_keys (ks ++ [k]).
Proof.
  unfold distinct_keys. induction ks as [|a ks IH]; simpl; intros Hd He.
  - repeat constructor.
  - apply orb_false_elim in He as [Ha He].
    inversion Hd as [|x l Hx Hl]; subst. constructor.
    + apply Forall_app; split; [assumption|].
      constructor; [|constructor]. now rewrite value_eqb_sym.
    + now apply IH.
Qed.

Section Grouped.
Variable key : doc -> value.

Lemma grouped_step (gs : list (value * list doc)) (p : list doc) (d : doc) :
  grouped key gs p -> grouped key (add_member (key d) d gs) (p ++ [d]).
Proof.
  intros (Hk & Hb & Hc). rewrite (add_member_spec _ _ _ Hk).
  destruct (existsb (value_eqb (key d)) (map fst gs)) eqn:Hit.
  - (* the record joins the bucket of its key *)
    assert (Hfst : map fst (map (fun g => if value_eqb (key d) (fst g)
                                          then (fst g, snd g ++ [d]) else g) gs)
                   = map fst gs).
    { rewrite map_map. apply map_ext. intros g.
      now destruct (value_eqb (key d) (fst g)). }
    split; [|split].
    + now rewrite Hfst.
    + rewrite Forall_map. revert Hb. apply Forall_impl.
      intros g (Hs & d0 & Hin & Hd0). rewrite filter_app.
      destruct (value_eqb (key d) (fst g)) eqn:E; simpl;
        change (in_bucket key (fst g) d) with (value_eqb (key d) (fst g));
        rewrite E.
      * split; [now rewrite Hs|]. exists d0. split; [|assumption].
        apply in_or_app. now left.
      * split; [now rewrite app_nil_r|]. exists d0. split; [|assumption].
        apply in_or_app. now left.
    + rewrite Hfst. apply Forall_app. split; [assumption|].
      constructor; [assumption|constructor].
  - (* the record opens a bucket *)
    assert (Hnew : forall d0, In d0 p -> value_eqb (key d0) (key d) = false).
    { intros d0 Hin. rewrite Forall_forall in Hc. specialize (Hc d0 Hin).
      destruct (value_eqb (key d0) (key d)) eqn:E; [|reflexivity].
      rewrite <- Hit, <- Hc. clear -E.
      induction (map fst gs) as [|c ks IH]; simpl; [reflexivity|].
      now rewrite IH, (value_eqb_congr _ _ c E). }
    split; [|split].
    + rewrite map_app. simpl. now apply distinct_keys_snoc.
    + apply Forall_app. split.
      * revert Hb. apply Forall_impl.
        intros g (Hs & d0 & Hin & Hd0). rewrite filter_app; simpl.
        change (in_bucket key (fst g) d) with (value_eqb (key d) (fst g)).
        assert (Hg : value_eqb (key d) (fst g) = false).
        { rewrite Hd0, value_eqb_sym. now apply Hnew. }
        rewrite Hg, app_nil_r. split; [assumption|].
        exists d0. split; [|assumption]. apply in_or_app. now left.
      * constructor; [|constructor]. simpl. split.
        -- rewrite filter_app; simpl.
           change (in_bucket key (key d) d) with (value_eqb (key d) (key d)).
           rewrite value_eqb_refl.
           replace (List.filter (in_bucket key (key d)) p) with (@nil doc);
             [reflexivity|].
           symmetry. clear -Hnew. induction p as [|x p IH]; [reflexivity|].
           simpl. unfold in_bucket at 1. rewrite Hnew by now left.
           apply IH. intros d0 H0. apply Hnew. now right.
        -- exists d. split; [|reflexivity]. apply in_or_app. right. now left.
    + rewrite map_app; simpl. apply Forall_app. split.
      * revert Hc. apply Forall_impl. intros d0 H0.
        rewrite existsb_app, H0. reflexivity.
      * constructor; [|constructor].
        rewrite existsb_app; simpl. rewrite value_eqb_refl.
        now rewrite orb_true_r.
Qed.

Lemma grouped_fold (l : list doc) :
  forall (gs : list (value * list doc)) (p : list doc),
    grouped key gs p ->
    grouped key
      (fold_left (fun gs kd => add_member (fst kd) (snd kd) gs)
                 (map (fun d => (key d, d)) l) gs)
      (p ++ l).
Proof.
  induction l as [|d l IH]; intros gs p H; simpl.
  - now rewrite app_nil_r.
  - replace (p ++ d :: l) with ((p ++ [d]) ++ l)
      by now rewrite <- app_assoc.
    apply IH. now apply grouped_step.
Qed.

Lemma buckets_grouped (coll : list doc) :
  grouped key (buckets (map (fun d => (key d, d)) coll)) coll.
Proof.
  apply (grouped_fold coll [] []). repeat split; constructor.
Qed.
End Grouped.

(** ** Pipelines *)

Lemma omap_ok {A B : Type} (f : A -> outcome B) (g : A -> B) (l : list A) :
  (forall x, In x l -> f x = Ok (g x)) -> omap f l = Ok (map g l).
Proof.
  induction l as [|x l IH]; simpl; intros H; [reflexivity|].
  rewrite (H x) by now left. simpl.
  rewrite IH by (intros y Hy; apply H; now right). reflexivity.
Qed.

Lemma eval_decade_key (d : doc) :
  year_ok d = true -> eval decade_key d = Ok (decade_of d).
Proof.
  unfold year_ok, decade_of, decade_key; simpl.
  destruct (field "published_year" d); try discriminate; reflexivity.
Qed.

Lemma total_ones (ds : list doc) :
  total (numbers (map (fun _ : doc => VNum 1) ds))
  = inject_Z (Z.of_nat (List.length ds)).
Proof.
  induction ds as [|d ds IH]; [reflexivity|].
  change (total (numbers (map (fun _ : doc => VNum 1) (d :: ds))))
    with (Qplus 1 (total (numbers (map (fun _ : doc => VNum 1) ds)))).
  rewrite IH. unfold Qplus, inject_Z. cbn [Qnum Qden List.length].
  f_equal. lia.
Qed.

Lemma count_accumulated (ds : list doc) :
  accumulate (ASum (ELit (VNum 1))) ds = Ok (as_count (List.length ds)).
Proof.
  unfold accumulate.
  rewrite (omap_ok _ (fun _ => VNum 1)) by reflexivity.
  simpl. unfold as_count. now rewrite total_ones.
Qed.

Lemma group_stage_run (id : expr) (accs : list (string * accumulator))
  (key : doc -> value) (mk : value * list doc -> doc) (l : list doc) :
  (forall d, In d l -> eval id d = Ok (key d)) ->
  (forall g, group_doc accs g = Ok (mk g)) ->
  group_stage id accs l
  = Ok (map mk (buckets (map (fun d => (key d, d)) l))).
Proof.
  intros Hk Hg. unfold group_stage.
  rewrite (omap_ok _ (fun d => (key d, d))).
  - simpl. apply omap_ok. intros g _. apply Hg.
  - intros d Hd. now rewrite (Hk d Hd).
Qed.

Lemma count_group_doc (name : string) (g : value * list doc) :
  group_doc [(name, ASum (ELit (VNum 1)))] g = Ok (counted name g).
Proof.
  unfold group_doc. cbn [omap obind fst snd].
  now rewrite count_accumulated.
Qed.

Lemma decade_pipeline_run (coll : list doc) :
  Forall (fun d => year_ok d = true) coll ->
  aggregate decade_pipeline coll
  = Ok (map decade_row
          (map size_of
             (sort_by key_leb
                (buckets (map (fun d => (decade_of d, d)) coll))))).
Proof.
  intros Hy. rewrite Forall_forall in Hy.
  unfold decade_pipeline. cbn [aggregate run_stage decade_grouping].
  rewrite (group_stage_run _ _ decade_of (counted "count")).
  - cbn [obind]. rewrite sort_by_map.
    change (fun a b => doc_leb ("_id", Asc) (counted "count" a) (counted "count" b))
      with key_leb.
    rewrite (omap_ok _ (fun d => [("count", field "count" d);
                                   ("decade", field "_id" d)])).
    + cbn [obind]. rewrite !map_map. reflexivity.
    + intros d Hd. apply in_map_iff in Hd as (g & <- & _). reflexivity.
  - intros d Hd. apply eval_decade_key. now apply Hy.
  - intros g. apply count_group_doc.
Qed.

Section Pairs.
Context {A : Type} (leb : A -> A -> bool) (R : A -> A -> Prop).
Hypothesis R_sym : forall a b, R a b -> R b a.

Lemma insert_sorted_pairs (x : A) (l : list A) :
  ForallOrdPairs R (x :: l) -> ForallOrdPairs R (insert_sorted leb x l).
Proof.
  induction l as [|y l IH]; simpl; intros H; [assumption|].
  destruct (leb x y); [assumption|].
  inversion H as [|a l0 Hx Hyl]; subst.
  inversion Hx as [|b l1 Hxy Hxl]; subst.
  inversion Hyl as [|c l2 Hy Hl]; subst.
  constructor.
  - apply (Permutation_Forall (Permutation_sym (insert_sorted_perm leb x l))).
    constructor; [now apply R_sym|assumption].
  - apply IH. now constructor.
Qed.

Lemma sort_by_pairs (l : list A) :
  ForallOrdPairs R l -> ForallOrdPairs R (sort_by leb l).
Proof.
  induction l as [|x l IH]; simpl; intros H; [constructor|].
  inversion H as [|a l0 Hx Hl]; subst.
  apply insert_sorted_pairs. constructor; [|now apply IH].
  apply (Permutation_Forall (Permutation_sym (sort_by_perm leb l)) Hx).
Qed.
End Pairs.

Lemma pairs_map {A B : Type} (f : A -> B) (R : B -> B -> Prop) (l : list A) :
  ForallOrdPairs R (map f l) -> ForallOrdPairs (fun a b => R (f a) (f b)) l.
Proof.
  induction l as [|x l IH]; simpl; intros H; [constructor|].
  inversion H as [|a l0 Hx Hl]; subst. constructor; [|now apply IH].
  now rewrite Forall_map in Hx.
Qed.

Lemma strictly_sorted (l : list (value * list doc)) :
  StronglySorted (fun a b => key_leb a b = true) l ->
  ForallOrdPairs (fun a b => value_eqb (fst a) (fst b) = false) l ->
  StronglySorted (fun a b => value_ltb (fst a) (fst b) = true) l.
Proof.
  induction l as [|x l IH]; intros Hs Hd; [constructor|].
  inversion Hs as [|a l0 Hs' Hx]; subst.
  inversion Hd as [|b l1 Hn Hd']; subst.
  constructor; [now apply IH|].
  rewrite Forall_forall in *. intros y Hy.
  specialize (Hx y Hy). specialize (Hn y Hy).
  unfold key_leb, value_leb, value_eqb, value_ltb in *.
  now destruct (value_compare (fst x) (fst y)).
Qed.

Lemma StronglySorted_map {A B : Type} (f : A -> B) (R : B -> B -> Prop)
  (l : list A) :
  StronglySorted (fun a b => R (f a) (f b)) l -> StronglySorted R (map f l).
Proof.
  induction 1 as [|x l Hs IH Hx]; simpl; constructor; [assumption|].
  now rewrite Forall_map.
Qed.

Lemma key_leb_sorted (l : list (value * list doc)) :
  StronglySorted (fun a b => key_leb a b = true) (sort_by key_leb l).
Proof.
  apply Sorted_StronglySorted.
  - intros a b c. unfold key_leb. apply value_leb_trans.
  - apply sort_by_sorted. intros a b. unfold key_leb. apply value_leb_total.
Qed.

(** ** Decades *)

Lemma num_mod_integer (y : Z) :
  (num_mod (inject_Z y) 10 == inject_Z (Z.rem y 10))%Q.
Proof.
  unfold num_mod. unfold Qdiv, Qinv, Qmult, inject_Z; cbn [Qnum Qden].
  change (1 * 10)%positive with 10%positive.
  unfold Qminus, Qplus, Qopp, Qmult, Qeq; cbn [Qnum Qden].
  pose proof (Z.quot_rem' y 10) as H.
  rewrite !Z.mul_1_r. lia.
Qed.

Lemma decade_of_integer (d : doc) (y : Z) :
  field "published_year" d = VNum (inject_Z y) ->
  value_eqb (decade_of d) (VNum (inject_Z (y - Z.rem y 10))) = true.
Proof.
  intros H. unfold decade_of. rewrite H.
  apply value_eqb_compare. simpl. apply Qeq_alt.
  rewrite num_mod_integer. unfold Qminus, Qplus, Qopp, Qeq, inject_Z; simpl.
  lia.
Qed.

Lemma decade_floor (y : Z) :
  (0 <= y -> y - Z.rem y 10 = 10 * (y / 10))%Z.
Proof.
  intros Hy. rewrite Z.rem_mod_nonneg by lia.
  pose proof (Z.div_mod y 10). lia.
Qed.

(** C3. On a collection whose records carry a numeric published_year (or
    none), the decade aggregation returns one record per bucket, made of the
    two fields count and decade and no _id, the decades strictly ascending.
    The decade of a bucket is the key published_year - (published_year mod
    10) of one of its records, its count is the number of records of the
    collection with that key, and every record is counted in a bucket.  For
    an integer year y the key is y - (y rem 10), which for a year that is not
    negative is y rounded down to a multiple of 10. *)
Theorem decade_buckets (coll : list doc) :
  Forall (fun d => year_ok d = true) coll ->
  exists table : list (value * nat),
    aggregate decade_pipeline coll = Ok (map decade_row table) /\
    (forall kn : value * nat,
        map fst (decade_row kn) = ["count"; "decade"] /\
        field "decade" (decade_row kn) = fst kn /\
        field "count" (decade_row kn) = as_count (snd kn)) /\
    StronglySorted key_below table /\
    (forall (k : value) (n : nat),
        In (k, n) table ->
        n = List.length (List.filter (in_bucket decade_of k) coll) /\
        (0 < n)%nat /\
        exists d, In d coll /\ k = decade_of d) /\
    (forall d : doc,
        In d coll ->
        exists (k : value) (n : nat),
          In (k, n) table /\ in_bucket decade_of k d = true) /\
    (forall (d : doc) (y : Z),
        field "published_year" d = VNum (inject_Z y) ->
        value_eqb (decade_of d) (VNum (inject_Z (y - Z.rem y 10))) = true /\
        (0 <= y -> y - Z.rem y 10 = 10 * (y / 10))%Z).
Proof.
  intros Hy.
  set (bs := buckets (map (fun d => (decade_of d, d)) coll)).
  set (sorted := sort_by key_leb bs).
  destruct (buckets_grouped decade_of coll) as (Hk & Hb & Hc).
  fold bs in Hk, Hb, Hc.
  assert (Hperm : Permutation sorted bs) by apply sort_by_perm.
  assert (Hb' : forall g, In g sorted ->
                  snd g = List.filter (in_bucket decade_of (fst g)) coll /\
                  exists d, In d coll /\ fst g = decade_of d).
  { intros g Hg. rewrite Forall_forall in Hb. apply Hb.
    now apply (Permutation_in _ Hperm). }
  exists (map size_of sorted). split; [|split; [|split; [|split; [|split]]]].
  - now apply decade_pipeline_run.
  - intros kn. repeat split.
  - apply StronglySorted_map. apply strictly_sorted.
    + apply key_leb_sorted.
    + apply sort_by_pairs.
      * intros a b H. now rewrite value_eqb_sym.
      * exact (pairs_map fst (fun a b => value_eqb a b = false) bs Hk).
  - intros k n Hin. apply in_map_iff in Hin as (g & Hg & Hin).
    inversion Hg; subst k n. destruct (Hb' g Hin) as (Hs & d & Hd & Hkd).
    split; [now rewrite Hs|]. split; [|now exists d].
    rewrite Hs. assert (Hi : In d (List.filter (in_bucket decade_of (fst g)) coll)).
    { apply filter_In. split; [assumption|].
      unfold in_bucket. rewrite Hkd. apply value_eqb_refl. }
    destruct (List.filter (in_bucket decade_of (fst g)) coll);
      [contradiction|simpl; lia].
  - intros d Hd. rewrite Forall_forall in Hc. specialize (Hc d Hd).
    apply existsb_exists in Hc as (k & Hk' & He).
    apply in_map_iff in Hk' as (g & <- & Hg).
    exists (fst g), (List.length (snd g)). split; [|exact He].
    apply in_map_iff. exists g. split; [reflexivity|].
    now apply (Permutation_in _ (Permutation_sym Hperm)).
  - intros d y H. split; [now apply decade_of_integer|apply decade_floor].
Qed.

(** ** Sums of counts *)

Lemma total_perm (l l' : list Q) :
  Permutation l l' -> (total l == total l')%Q.
Proof.
  unfold total. induction 1 as [|x l l' _ IH|x y l|l l' l'' _ IH1 _ IH2]; simpl.
  - reflexivity.
  - now rewrite IH.
  - rewrite !Qplus_assoc. now rewrite (Qplus_comm y x).
  - now rewrite IH1.
Qed.

Lemma sum_field_perm (k : string) (l l' : list doc) :
  Permutation l l' -> (sum_field k l == sum_field k l')%Q.
Proof.
  intros H. unfold sum_field, numbers. apply total_perm.
  apply Permutation_flat_map. now apply Permutation_map.
Qed.

Lemma sum_counts (name : string) (mk : value * list doc -> doc)
  (gs : list (value * list doc)) :
  (forall g, field name (mk g) = as_count (List.length (snd g))) ->
  (sum_field name (map mk gs) == inject_Z (Z.of_nat (sizes gs)))%Q.
Proof.
  intros Hf. unfold sum_field.
  induction gs as [|g gs IH]; [reflexivity|].
  change (sizes (g :: gs)) with (List.length (snd g) + sizes gs)%nat.
  cbn [map]. rewrite Hf. unfold as_count.
  change (total (numbers (VNum (inject_Z (Z.of_nat (List.length (snd g))))
                          :: map (field name) (map mk gs))))
    with (Qplus (inject_Z (Z.of_nat (List.length (snd g))))
                (total (numbers (map (field name) (map mk gs))))).
  rewrite IH, Nat2Z.inj_add, inject_Z_plus. reflexivity.
Qed.

Lemma groups_total (key : doc -> value) (coll : list doc) :
  sizes (buckets (map (fun d => (key d, d)) coll)) = List.length coll.
Proof. now rewrite buckets_sizes, length_map. Qed.

Lemma mean_accumulated (ds : list doc) :
  accumulate (AAvg (EField "price")) ds = Ok (mean_price ds).
Proof.
  unfold accumulate, mean_price.
  rewrite (omap_ok _ (field "price")) by reflexivity.
  cbn [obind]. now destruct (numbers (map (field "price") ds)).
Qed.

Lemma genre_group_doc (g : value * list doc) :
  group_doc [("averagePrice", AAvg (EField "price"));
             ("bookCount", ASum (ELit (VNum 1)))] g
  = Ok (genre_row g).
Proof.
  unfold group_doc. cbn [omap obind fst snd].
  now rewrite mean_accumulated, count_accumulated.
Qed.

(** C4. In each of the three groupings of Task 4 the counts of the groups
    add up to the number of records of the collection: bookCount over the
    genres (also over the printed result, which is the groups reordered),
    numberOfBooks over the authors (the printed result keeps the first group
    of the descending order only), and count over the decades (also over the
    printed result), the latter on a collection whose years are numbers or
    absent. *)
Theorem group_counts_total (coll : list doc) :
  (exists groups out : list doc,
      run_stage genre_grouping coll = Ok groups /\
      aggregate genre_pipeline coll = Ok out /\
      Permutation out groups /\
      (sum_field "bookCount" groups == records coll)%Q /\
      (sum_field "bookCount" out == records coll)%Q) /\
  (exists groups : list doc,
      run_stage author_grouping coll = Ok groups /\
      aggregate author_pipeline coll
      = Ok (firstn 1 (sort_by (doc_leb ("numberOfBooks", Desc)) groups)) /\
      (sum_field "numberOfBooks" groups == records coll)%Q) /\
  (Forall (fun d => year_ok d = true) coll ->
   exists groups out : list doc,
     run_stage decade_grouping coll = Ok groups /\
     aggregate decade_pipeline coll = Ok out /\
     (sum_field "count" groups == records coll)%Q /\
     (sum_field "count" out == records coll)%Q).
Proof.
  unfold records. split; [|split].
  - assert (Hg : run_stage genre_grouping coll
                 = Ok (map genre_row
                         (buckets (map (fun d => (field "genre" d, d)) coll)))).
    { apply group_stage_run; [reflexivity|apply genre_group_doc]. }
    assert (Hs : (sum_field "bookCount"
                    (map genre_row
                       (buckets (map (fun d => (field "genre" d, d)) coll)))
                  == inject_Z (Z.of_nat (List.length coll)))%Q).
    { rewrite sum_counts by reflexivity. now rewrite groups_total. }
    eexists. eexists. split; [exact Hg|].
    split; [|split; [|split]].
    + unfold genre_pipeline. cbn [aggregate]. rewrite Hg. reflexivity.
    + apply sort_by_perm.
    + exact Hs.
    + rewrite (sum_field_perm _ _ _ (sort_by_perm _ _)). exact Hs.
  - assert (Hg : run_stage author_grouping coll
                 = Ok (map (counted "numberOfBooks")
                         (buckets (map (fun d => (field "author" d, d)) coll)))).
    { apply group_stage_run; [reflexivity|apply count_group_doc]. }
    eexists. split; [exact Hg|]. split.
    + unfold author_pipeline. cbn [aggregate]. rewrite Hg. reflexivity.
    + rewrite sum_counts by reflexivity. now rewrite groups_total.
  - intros Hy.
    assert (Hg : run_stage decade_grouping coll
                 = Ok (map (counted "count")
                         (buckets (map (fun d => (decade_of d, d)) coll)))).
    { apply group_stage_run; [|apply count_group_doc].
      intros d Hd. apply eval_decade_key.
      rewrite Forall_forall in Hy. now apply Hy. }
    eexists. eexists. split; [exact Hg|]. split; [|split].
    + now apply decade_pipeline_run.
    + rewrite sum_counts by reflexivity. now rewrite groups_total.
    + rewrite !map_map.
      rewrite (sum_counts "count" (fun g => decade_row (size_of g)))
        by reflexivity.
      unfold sizes.
      rewrite (Permutation_map _ (sort_by_perm key_leb _)).
      fold (sizes (buckets (map (fun d => (decade_of d, d)) coll))).
      now rewrite groups_total.
Qed.

(** ** Task 5 *)

Lemma console_emit (es : list entry) (w : world) :
  console (emit es w) = console w ++ es.
Proof. reflexivity. Qed.

Lemma console_issue (c : call) (w : world) : console (issue c w) = console w.
Proof. reflexivity. Qed.

Lemma trace_emit (es : list entry) (w : world) : trace (emit es w) = trace w.
Proof. reflexivity. Qed.

Lemma trace_issue (c : call) (w : world) : trace (issue c w) = trace w ++ [c].
Proof. reflexivity. Qed.

Lemma books_emit (es : list entry) (w : world) : books (emit es w) = books w.
Proof. reflexivity. Qed.

Lemma books_issue (c : call) (w : world) : books (issue c w) = books w.
Proof. reflexivity. Qed.

Lemma indexes_emit (es : list entry) (w : world) :
  indexes (emit es w) = indexes w.
Proof. reflexivity. Qed.

Lemma indexes_issue (c : call) (w : world) : indexes (issue c w) = indexes w.
Proof. reflexivity. Qed.

Lemma pending_fault (w : world) : pending w = fault 0 w.
Proof. unfold pending, fault. now destruct (faults w). Qed.

Lemma fault_issue (n : nat) (c : call) (w : world) :
  fault n (issue c w) = fault (S n) w.
Proof.
  unfold fault; simpl. destruct (faults w); [now destruct n|reflexivity].
Qed.

Lemma fault_emit (n : nat) (es : list entry) (w : world) :
  fault n (emit es w) = fault n w.
Proof. reflexivity. Qed.

Lemma fault_indexed (n : nat) (keys : index_keys) (a : option error)
  (w : world) :
  fault n (indexed keys a w) = fault n w.
Proof.
  unfold indexed.
  destruct a as [e|]; [destruct (applied e); [|reflexivity]|];
    now destruct (existsb (same_keys keys) (indexes w)).
Qed.

Lemma index_attempt (ok err : string) (keys : index_keys) (w : world) :
  try_catch
    (r <- await_createIndex keys ;; console_log (LogWith ok r))
    (fun e => console_log (ErrorWith err (message e))) w
  = (Ok tt,
     emit [match pending w with
           | Some e => ErrorWith err (message e)
           | None => LogWith ok (index_name keys)
           end]
          (indexed keys (pending w) (issue (CCreateIndex keys) w))).
Proof.
  unfold try_catch, bind, await_createIndex, await_write, indexed.
  destruct (pending w) as [e|].
  - rewrite console_log_run. cbn [snd indexes issue].
    destruct (applied e); [|reflexivity].
    now destruct (existsb (same_keys keys) (indexes w)).
  - cbn [indexes issue].
    now destruct (existsb (same_keys keys) (indexes w)).
Qed.

Lemma analyzePlan_lines (title : string) (p : explainPlan) (w : world) :
  analyzePlan title p w = (Ok tt, emit (plan_lines title p) w).
Proof. apply analyzePlan_run. Qed.

Section Task5.
Variable planner : list index_keys -> list doc -> filter -> explainPlan.

Lemma await_explain_run (f : filter) (w : world) :
  pending w = None ->
  await_explain planner f w
  = (Ok (planner (indexes w) (books w) f), issue (CExplain f) w).
Proof. intros H. unfold await_explain. now rewrite await_run. Qed.

Lemma await_explain_reject (f : filter) (w : world) (e : error) :
  pending w = Some e ->
  await_explain planner f w = (Throw e, issue (CExplain f) w).
Proof. intros H. unfold await_explain. now rewrite (await_reject _ _ _ e). Qed.

(** Task 5 up to the first explain: both index creations are attempted
    and reported, whatever the store answers. *)
Lemma runTask5_indexes (w : world) :
  runTask5 planner w
  = (explainTitleSearch <- await_explain planner title_search ;;
     analyzePlan "Explain plan for query on indexed 'title' field"
                 explainTitleSearch ;;
     explainCompoundSearch <- await_explain planner compound_search ;;
     analyzePlan
       "Explain plan for query on compound indexed fields ('author', 'published_year')"
       explainCompoundSearch)
      (after_indexes w).
Proof.
  unfold runTask5.
  erewrite bind_ok by apply console_log_run.
  erewrite bind_ok by apply console_log_run.
  rewrite emit_emit.
  erewrite bind_ok by apply index_attempt.
  erewrite bind_ok by apply index_attempt.
  erewrite bind_ok by apply console_log_run.
  rewrite !pending_fault.
  rewrite ?fault_emit, ?fault_indexed, ?fault_issue, ?fault_emit.
  reflexivity.
Qed.

Lemma after_indexes_fault (n : nat) (w : world) :
  fault n (after_indexes w) = fault (S (S n)) w.
Proof.
  unfold after_indexes.
  repeat first [ rewrite fault_emit | rewrite fault_indexed
               | rewrite fault_issue ].
  reflexivity.
Qed.

Lemma indexed_frame (keys : index_keys) (a : option error) (w : world) :
  books (indexed keys a w) = books w /\
  console (indexed keys a w) = console w /\
  trace (indexed keys a w) = trace w /\
  connected (indexed keys a w) = connected w.
Proof.
  unfold indexed.
  destruct a as [e|]; [destruct (applied e); [|now repeat split]|];
    destruct (existsb (same_keys keys) (indexes w)); now repeat split.
Qed.

Lemma after_indexes_console (w : world) :
  console (after_indexes w)
  = console w
    ++ [ Log (nl ++ "--- Running Task 5: Indexing ---")%string;
         Log "This task creates indexes and analyzes query performance.";
         title_index_line (fault 0 w);
         compound_index_line (fault 1 w);
         Log (nl ++ "Task 5.3: Using explain() to analyze query performance")%string ].
Proof.
  unfold after_indexes.
  repeat first [ rewrite console_emit | rewrite console_issue
               | rewrite (proj1 (proj2 (indexed_frame _ _ _))) ].
  rewrite <- !app_assoc. reflexivity.
Qed.

Lemma after_indexes_trace (w : world) :
  trace (after_indexes w)
  = trace w ++ [CCreateIndex title_index; CCreateIndex compound_index].
Proof.
  unfold after_indexes.
  repeat first [ rewrite trace_emit | rewrite trace_issue
               | rewrite (proj1 (proj2 (proj2 (indexed_frame _ _ _)))) ].
  rewrite <- !app_assoc. reflexivity.
Qed.

Lemma after_indexes_books (w : world) : books (after_indexes w) = books w.
Proof.
  unfold after_indexes.
  repeat first [ rewrite books_emit | rewrite books_issue
               | rewrite (proj1 (indexed_frame _ _ _)) ].
  reflexivity.
Qed.

End Task5.

(** C7. Task 5 attempts both index creations and the first explain whatever
    the store answers: a creation the store rejects is reported on the
    console by the handler of its own try block (the message of the error
    after [Error creating title index:] or [Error creating compound index:])
    and the statements after it run as they do after a success.  When the
    two explain calls are served, Task 5 completes normally and prints both
    plan analyses, whether or not the creations failed; explain failures are
    not caught in Task 5. *)
Theorem index_failures_contained
  (planner : list index_keys -> list doc -> filter -> explainPlan)
  (w : world) :
  exists (more : list entry) (calls : list call),
    console (snd (runTask5 planner w))
    = console w
      ++ [ Log (nl ++ "--- Running Task 5: Indexing ---")%string;
           Log "This task creates indexes and analyzes query performance.";
           title_index_line (fault 0 w);
           compound_index_line (fault 1 w);
           Log (nl ++ "Task 5.3: Using explain() to analyze query performance")%string ]
      ++ more /\
    trace (snd (runTask5 planner w))
    = trace w
      ++ [ CCreateIndex title_index; CCreateIndex compound_index;
           CExplain title_search ]
      ++ calls /\
    (forall e : error,
        title_index_line (Some e)
        = ErrorWith "Error creating title index:" (message e) /\
        compound_index_line (Some e)
        = ErrorWith "Error creating compound index:" (message e)) /\
    title_index_line None
    = LogWith "Task 5.1: Index on 'title' created successfully:" "title_1" /\
    compound_index_line None
    = LogWith "Task 5.2: Compound index on 'author' and 'published_year' created successfully:"
              "author_1_published_year_-1" /\
    (fault 2 w = None -> fault 3 w = None ->
     fst (runTask5 planner w) = Ok tt /\
     calls = [CExplain compound_search] /\
     more
     = plan_lines "Explain plan for query on indexed 'title' field"
         (planner (indexes (snd (runTask5 planner w))) (books w) title_search)
       ++ plan_lines
            "Explain plan for query on compound indexed fields ('author', 'published_year')"
            (planner (indexes (snd (runTask5 planner w))) (books w)
                     compound_search)) /\
    (forall e : error,
        fault 2 w = Some e -> fst (runTask5 planner w) = Throw e) /\
    books (snd (runTask5 planner w)) = books w.
Proof.
  rewrite runTask5_indexes.
  pose proof (after_indexes_console w) as Hc.
  pose proof (after_indexes_trace w) as Ht.
  pose proof (after_indexes_books w) as Hb.
  pose proof (after_indexes_fault 0 w) as H2.
  pose proof (after_indexes_fault 1 w) as H3.
  set (W := after_indexes w) in *.
  destruct (fault 2 w) as [e2|] eqn:E2.
  - (* the first explain is rejected *)
    erewrite bind_throw
      by (apply await_explain_reject; rewrite pending_fault; exact H2).
    exists [], []. cbn [fst snd].
    split; [|split; [|split; [|split; [|split; [|split; [|split]]]]]].
    + rewrite console_issue, Hc. now rewrite app_nil_r.
    + rewrite trace_issue, Ht. now rewrite <- !app_assoc.
    + intros e. now split.
    + reflexivity.
    + reflexivity.
    + discriminate.
    + intros e He. now inversion He.
    + now rewrite books_issue.
  - erewrite bind_ok
      by (apply await_explain_run; rewrite pending_fault; exact H2).
    erewrite bind_ok by apply analyzePlan_lines.
    destruct (fault 3 w) as [e3|] eqn:E3.
    + (* the second explain is rejected *)
      erewrite bind_throw.
      2:{ apply await_explain_reject.
          rewrite pending_fault, fault_emit, fault_issue. exact H3. }
      exists (plan_lines "Explain plan for query on indexed 'title' field"
                (planner (indexes W) (books W) title_search)).
      exists [CExplain compound_search]. cbn [fst snd].
      split; [|split; [|split; [|split; [|split; [|split; [|split]]]]]].
      * rewrite console_issue, console_emit, console_issue, Hc.
        rewrite <- !app_assoc. reflexivity.
      * rewrite trace_issue, trace_emit, trace_issue, Ht.
        now rewrite <- !app_assoc.
      * intros e. now split.
      * reflexivity.
      * reflexivity.
      * discriminate.
      * discriminate.
      * now rewrite books_issue, books_emit, books_issue.
    + erewrite bind_ok.
      2:{ apply await_explain_run.
          rewrite pending_fault, fault_emit, fault_issue. exact H3. }
      rewrite analyzePlan_lines.
      exists (plan_lines "Explain plan for query on indexed 'title' field"
                (planner (indexes W) (books W) title_search)
              ++ plan_lines
                   "Explain plan for query on compound indexed fields ('author', 'published_year')"
                   (planner (indexes W) (books W) compound_search)).
      exists [CExplain compound_search]. cbn [fst snd].
      split; [|split; [|split; [|split; [|split; [|split; [|split]]]]]].
      * rewrite console_emit, console_issue, console_emit, console_issue, Hc.
        rewrite <- !app_assoc. reflexivity.
      * rewrite trace_emit, trace_issue, trace_emit, trace_issue, Ht.
        now rewrite <- !app_assoc.
      * intros e. now split.
      * reflexivity.
      * reflexivity.
      * intros _ _. repeat split.
        rewrite !indexes_emit, !indexes_issue, !indexes_emit, !indexes_issue.
        now rewrite Hb.
      * discriminate.
      * now rewrite books_emit, books_issue, books_emit, books_issue.
Qed.

(** ** main *)

Section Main.
Variable planner : list index_keys -> list doc -> filter -> explainPlan.

Lemma main_run (w : world) :
  main planner w
  = (Ok tt,
     match workflow planner w with
     | (Ok _, wb) => emit [closing_message] (snd (close wb))
     | (Throw e, wb) =>
         emit [closing_message]
              (snd (close (emit [ErrorObj "An error occurred:" e] wb)))
     end).
Proof.
  unfold main, try_catch_finally, try_catch.
  destruct (workflow planner w) as [[[]|e] wb].
  - erewrite bind_ok by reflexivity. now rewrite console_log_run.
  - rewrite console_log_run.
    erewrite bind_ok by reflexivity. now rewrite console_log_run.
Qed.

Lemma workflow_steps (w : world) :
  workflow planner w
  = match connect w with
    | (Throw e, w1) => (Throw e, w1)
    | (Ok _, w1) =>
        match runTask2 (emit [connected_message] w1) with
        | (Throw e, w2) => (Throw e, w2)
        | (Ok _, w2) =>
            match runTask3 w2 with
            | (Throw e, w3) => (Throw e, w3)
            | (Ok _, w3) =>
                match runTask4 w3 with
                | (Throw e, w4) => (Throw e, w4)
                | (Ok _, w4) => runTask5 planner w4
                end
            end
        end
    end.
Proof.
  unfold connected_message, workflow, bind at 1.
  destruct (connect w) as [[[]|e] w1]; [|reflexivity].
  unfold bind at 1. rewrite console_log_run.
  unfold bind at 1.
  destruct (runTask2 (emit [Log "Connected successfully to MongoDB server"] w1))
    as [[[]|e] w2]; [|reflexivity].
  unfold bind at 1. destruct (runTask3 w2) as [[[]|e] w3]; [|reflexivity].
  unfold bind at 1. now destruct (runTask4 w3) as [[[]|e] w4].
Qed.
End Main.

(** C8. [main] always returns normally, with the handle closed, the close
    recorded last in the trace and the closing message last on the console.
    When the statements of the try block complete, nothing is printed
    between their output and the closing message.  When one of them throws,
    the statements after it are skipped: a throw of the connection skips all
    four tasks, a throw in a task skips the tasks after it, and inside a
    sequence a throwing statement skips its continuation; the handler of
    [main] prints the error once, directly after the output produced up to
    the throw, and the close and the closing message follow.  The handler
    attached to the promise of [main] has nothing left to catch. *)
Theorem main_closes
  (planner : list index_keys -> list doc -> filter -> explainPlan)
  (w : world) :
  fst (main planner w) = Ok tt /\
  connected (snd (main planner w)) = false /\
  (forall wb : world,
      workflow planner w = (Ok tt, wb) ->
      console (snd (main planner w)) = console wb ++ [closing_message] /\
      trace (snd (main planner w)) = trace wb ++ [CClose] /\
      books (snd (main planner w)) = books wb) /\
  (forall (e : error) (wb : world),
      workflow planner w = (Throw e, wb) ->
      console (snd (main planner w))
      = console wb ++ [ErrorObj "An error occurred:" e; closing_message] /\
      trace (snd (main planner w)) = trace wb ++ [CClose] /\
      books (snd (main planner w)) = books wb) /\
  (forall (e : error) (w1 : world),
      connect w = (Throw e, w1) -> workflow planner w = (Throw e, w1)) /\
  (forall (e : error) (w1 w2 : world),
      connect w = (Ok tt, w1) ->
      runTask2 (emit [connected_message] w1) = (Throw e, w2) ->
      workflow planner w = (Throw e, w2)) /\
  (forall (e : error) (w1 w2 w3 : world),
      connect w = (Ok tt, w1) ->
      runTask2 (emit [connected_message] w1) = (Ok tt, w2) ->
      runTask3 w2 = (Throw e, w3) ->
      workflow planner w = (Throw e, w3)) /\
  (forall (e : error) (w1 w2 w3 w4 : world),
      connect w = (Ok tt, w1) ->
      runTask2 (emit [connected_message] w1) = (Ok tt, w2) ->
      runTask3 w2 = (Ok tt, w3) ->
      runTask4 w3 = (Throw e, w4) ->
      workflow planner w = (Throw e, w4)) /\
  (forall (w1 w2 w3 w4 : world),
      connect w = (Ok tt, w1) ->
      runTask2 (emit [connected_message] w1) = (Ok tt, w2) ->
      runTask3 w2 = (Ok tt, w3) ->
      runTask4 w3 = (Ok tt, w4) ->
      workflow planner w = runTask5 planner w4) /\
  (forall (A B : Type) (m : M A) (k : A -> M B) (e : error) (w0 w' : world),
      m w0 = (Throw e, w') -> bind m k w0 = (Throw e, w')) /\
  script planner w = main planner w.
Proof.
  assert (Hs : script planner w = main planner w).
  { unfold script, try_catch. now rewrite main_run. }
  rewrite main_run. cbn [fst snd].
  split; [reflexivity|]. split.
  { now destruct (workflow planner w) as [[[]|e] wb]. }
  split; [intros wb ->; cbn; now rewrite <- ?app_assoc|].
  split; [intros e wb ->; cbn; now rewrite <- ?app_assoc|].
  rewrite workflow_steps.
  split; [now intros e w1 ->|].
  split; [now intros e w1 w2 -> ->|].
  split; [now intros e w1 w2 w3 -> -> ->|].
  split; [now intros e w1 w2 w3 w4 -> -> -> ->|].
  split; [now intros w1 w2 w3 w4 -> -> -> ->|].
  split; [|rewrite Hs; apply main_run].
  intros A B m k e w0 w'. apply bind_throw.
Qed.

(** * The properties at work on the sample bookstore *)

Lemma sample_years_ok : Forall (fun d => year_ok d = true) sample_books.
Proof. repeat constructor. Qed.

Lemma decade_buckets_witness :
  Forall (fun d => year_ok d = true) sample_books /\
  exists table : list (value * nat),
    aggregate decade_pipeline sample_books = Ok (map decade_row table) /\
    StronglySorted key_below table.
Proof.
  split; [exact sample_years_ok|].
  destruct (decade_buckets sample_books sample_years_ok)
    as (table & Hrun & _ & Hsorted & _).
  exists table. now split.
Defined.

Lemma group_counts_total_witness :
  Forall (fun d => year_ok d = true) sample_books /\
  exists groups out : list doc,
    run_stage decade_grouping sample_books = Ok groups /\
    aggregate decade_pipeline sample_books = Ok out /\
    (sum_field "count" groups == records sample_books)%Q /\
    (sum_field "count" out == records sample_books)%Q.
Proof.
  split; [exact sample_years_ok|].
  apply (group_counts_total sample_books). exact sample_years_ok.
Defined.

Lemma hobbit_price_update_witness :
  faults (start sample_books []) = [] /\
  In (book 5 "The Hobbit" "J.R.R. Tolkien" "Fantasy" 1937 12.50 true)
     (books (start sample_books [])) /\
  field "title" (book 5 "The Hobbit" "J.R.R. Tolkien" "Fantasy" 1937 12.50 true)
  = VStr "The Hobbit" /\
  exists d' : doc,
    lookup "price" d' = Some (VNum 15.99) /\
    findOne hobbit (reprice (reprice sample_books)) = findOne hobbit (reprice sample_books).
Proof.
  split; [reflexivity|]. split; [cbn; tauto|]. split; [reflexivity|].
  destruct (hobbit_price_update (start sample_books [])
              (book 5 "The Hobbit" "J.R.R. Tolkien" "Fantasy" 1937 12.50 true))
    as (d' & _ & Hprice & _ & _ & _ & _ & Hread).
  - reflexivity.
  - cbn; tauto.
  - reflexivity.
  - exists d'. split; [exact Hprice|]. apply (Hread hobbit).
Defined.

Lemma task2_frame_witness :
  faults (start sample_books []) = [] /\
  count hobbit (books (start sample_books [])) = 1 /\
  count moby_dick (books (start sample_books [])) = 1 /\
  List.length (books (snd (runTask2 (start sample_books [])))) + 1
  = List.length (books (start sample_books [])) /\
  toArray (find moby_dick) (books (snd (runTask2 (start sample_books [])))) = [].
Proof.
  split; [reflexivity|]. split; [reflexivity|]. split; [reflexivity|].
  destruct (task2_frame (start sample_books []))
    as (_ & _ & Hlen & Hgone & _); try reflexivity.
  now split.
Defined.

Lemma index_failures_contained_witness :
  fault 0 (start sample_books [Some timeout_error]) = Some timeout_error /\
  fault 2 (start sample_books [Some timeout_error]) = None /\
  fault 3 (start sample_books [Some timeout_error]) = None /\
  exists (more : list entry) (calls : list call),
    fst (runTask5 sample_planner (start sample_books [Some timeout_error]))
    = Ok tt /\
    calls = [CExplain compound_search] /\
    trace (snd (runTask5 sample_planner (start sample_books [Some timeout_error])))
    = trace (start sample_books [Some timeout_error])
      ++ [ CCreateIndex title_index; CCreateIndex compound_index;
           CExplain title_search ]
      ++ calls.
Proof.
  split; [reflexivity|]. split; [reflexivity|]. split; [reflexivity|].
  destruct (index_failures_contained sample_planner
              (start sample_books [Some timeout_error]))
    as (more & calls & _ & Htrace & _ & _ & _ & Hserved & _).
  destruct Hserved as (Hok & Hcalls & _); try reflexivity.
  exists more, calls. repeat split; assumption.
Defined.

Lemma main_closes_witness :
  workflow sample_planner
    (start sample_books [None; None; None; None; Some timeout_error])
  = (Throw timeout_error,
     snd (workflow sample_planner
            (start sample_books [None; None; None; None; Some timeout_error]))) /\
  console (snd (main sample_planner
                  (start sample_books [None; None; None; None; Some timeout_error])))
  = console (snd (workflow sample_planner
                    (start sample_books [None; None; None; None; Some timeout_error])))
    ++ [ErrorObj "An error occurred:" timeout_error; closing_message] /\
  trace (snd (main sample_planner
                (start sample_books [None; None; None; None; Some timeout_error])))
  = [ CConnect; CToArray fiction_query; CToArray recent_query;
      CToArray orwell_query; CUpdateOne hobbit "price" (VNum 15.99); CClose ].
Proof.
  assert (H : workflow sample_planner
                (start sample_books [None; None; None; None; Some timeout_error])
              = (Throw timeout_error,
                 snd (workflow sample_planner
                        (start sample_books
                               [None; None; None; None; Some timeout_error]))))
    by (vm_compute; reflexivity).
  split; [exact H|].
  destruct (main_closes sample_planner
              (start sample_books [None; None; None; None; Some timeout_error]))
    as (_ & _ & _ & Hthrow & _).
  destruct (Hthrow _ _ H) as (Hconsole & Htrace & _).
  split; [exact Hconsole|].
  rewrite Htrace. vm_compute. reflexivity.
Defined.

Example sample_page1 :
  toArray page1_query sample_books
  = [ [("title", VStr "Pride and Prejudice"); ("published_year", VNum 1813)];
      [("title", VStr "Wuthering Heights"); ("published_year", VNum 1847)];
      [("title", VStr "Moby Dick"); ("published_year", VNum 1851)];
      [("title", VStr "The Great Gatsby"); ("published_year", VNum 1925)];
      [("title", VStr "Brave New World"); ("published_year", VNum 1932)] ].
Proof. vm_compute. reflexivity. Qed.

Example sample_page2 :
  toArray page2_query sample_books
  = [ [("title", VStr "The Hobbit"); ("published_year", VNum 1937)];
      [("title", VStr "Animal Farm"); ("published_year", VNum 1945)];
      [("title", VStr "1984"); ("published_year", VNum 1949)];
      [("title", VStr "The Catcher in the Rye"); ("published_year", VNum 1951)];
      [("title", VStr "The Lord of the Rings"); ("published_year", VNum 1954)] ].
Proof. vm_compute. reflexivity. Qed.

Example sample_decades :
  aggregate decade_pipeline sample_books
  = Ok [ [("count", VNum 1); ("decade", VNum 1810)];
         [("count", VNum 1); ("decade", VNum 1840)];
         [("count", VNum 1); ("decade", VNum 1850)];
         [("count", VNum 1); ("decade", VNum 1920)];
         [("count", VNum 2); ("decade", VNum 1930)];
         [("count", VNum 2); ("decade", VNum 1940)];
         [("count", VNum 2); ("decade", VNum 1950)];
         [("count", VNum 1); ("decade", VNum 1960)];
         [("count", VNum 1); ("decade", VNum 1980)] ].
Proof. vm_compute. reflexivity. Qed.

(** A year stored as text makes [$mod] fail, and the aggregation with it. *)
Example text_year_rejected :
  aggregate decade_pipeline [[("title", VStr "Untitled"); ("published_year", VStr "1937")]]
  = Throw (type_error "$mod").
Proof. reflexivity. Qed.

(** The remainder follows the sign of the year. *)
Example decade_of_negative_year :
  value_eqb (decade_of [("published_year", VNum (-5))]) (VNum 0) = true.
Proof. reflexivity. Qed.

Example sample_run_completes :
  fst (main sample_planner (start sample_books [])) = Ok tt /\
  List.length (books (snd (main sample_planner (start sample_books [])))) = 11 /\
  connected (snd (main sample_planner (start sample_books []))) = false.
Proof. vm_compute. repeat split. Qed.

(** * Further properties of the script *)

(** ** The reads of Task 2 and Task 3.1 *)


Lemma matches_string (k s : string) (d : doc) :
  matches [(k, CEq (VStr s))] d = true <-> field k d = VStr s.
Proof.
  unfold matches; cbn [forallb fst snd holds]. rewrite andb_true_r.
  apply value_eqb_str.
Qed.

Lemma holds_above (bound : Q) (x : value) :
  holds (CGt (VNum bound)) x = true
  <-> exists y : Q, x = VNum y /\ (bound < y)%Q.
Proof.
  unfold holds, same_type, value_ltb. split.
  - destruct x as [|y| | |]; try discriminate.
    change (value_compare (VNum bound) (VNum y)) with (Qcompare bound y).
    destruct (Qcompare bound y) eqn:E;
      cbn [type_rank Nat.eqb andb]; try discriminate.
    intros _. exists y. split; [reflexivity|]. now apply Qlt_alt.
  - intros (y & -> & Hy).
    change (value_compare (VNum bound) (VNum y)) with (Qcompare bound y).
    now rewrite (proj1 (Qlt_alt bound y) Hy).
Qed.

(** The three finds of Task 2 return whole stored records and select by the
    field alone: the records of genre 'Fiction', the records by 'George
    Orwell', and the records whose published_year is a number above 1950 (a
    year of 1950 or less, a missing year and a year that is not a number are
    all left out). *)
Theorem task2_finds (coll : list doc) (d : doc) :
  (In d (toArray fiction_query coll)
   <-> In d coll /\ field "genre" d = VStr "Fiction") /\
  (In d (toArray orwell_query coll)
   <-> In d coll /\ field "author" d = VStr "George Orwell") /\
  (In d (toArray recent_query coll)
   <-> In d coll /\
       exists y : Q, field "published_year" d = VNum y /\ (1950 < y)%Q) /\
  (lookup "published_year" d = None -> ~ In d (toArray recent_query coll)) /\
  (forall y : Q, field "published_year" d = VNum y -> (y <= 1950)%Q ->
                 ~ In d (toArray recent_query coll)).
Proof.
  unfold fiction_query, orwell_query, recent_query.
  rewrite !toArray_find, !filter_In, !matches_string.
  assert (Hr : matches [("published_year", CGt (VNum 1950))] d = true
               <-> exists y : Q, field "published_year" d = VNum y /\ (1950 < y)%Q).
  { unfold matches; cbn [forallb fst snd]. rewrite andb_true_r.
    apply holds_above. }
  rewrite Hr.
  split; [reflexivity|]. split; [reflexivity|]. split; [reflexivity|]. split.
  - intros Hn H. destruct H as [_ [y [Hy _]]].
    unfold field in Hy. now rewrite Hn in Hy.
  - intros y Hy Hle H. apply filter_In in H. destruct H as [_ H].
    apply Hr in H. destruct H as [y' [Hy' Hlt]].
    rewrite Hy in Hy'. inversion Hy'; subst y'.
    apply (Qlt_irrefl 1950). eapply Qlt_le_trans; eassumption.
Qed.



(** ** The projection of Task 3.2 *)

Lemma lookup_kept (keep : string -> bool) (k : string) (d : doc) :
  lookup k (List.filter (fun kv => keep (fst kv)) d)
  = if keep k then lookup k d else None.
Proof.
  induction d as [|[k' v] d IH]; cbn [List.filter lookup fst].
  - now destruct (keep k).
  - destruct (keep k') eqn:Ek'; cbn [lookup].
    + destruct (String.eqb_spec k k') as [->|Hk].
      * now rewrite Ek'.
      * exact IH.
    + rewrite IH. destruct (String.eqb_spec k k') as [->|Hk].
      * now rewrite Ek'.
      * reflexivity.
Qed.

(** Task 3.2 returns one record per stored record, in the stored order,
    carrying the stored title, author and price and nothing else: neither
    the _id nor any other field of the record comes back, and a field the
    record lacks is not made up. *)
Theorem projected_books (coll : list doc) :
  Forall2
    (fun d p : doc =>
       lookup "title" p = lookup "title" d /\
       lookup "author" p = lookup "author" d /\
       lookup "price" p = lookup "price" d /\
       lookup "_id" p = None /\
       (forall k : string,
           k <> "title" -> k <> "author" -> k <> "price" ->
           lookup k p = None))
    coll (toArray projected_query coll).
Proof.
  unfold toArray, selected, projected_query; cbn [q_project q_limit q_skip
    q_sort q_filter project find take skipn sort_docs project_doc].
  rewrite (filter_all _ _ matches_nil).
  induction coll as [|d coll IH]; cbn [map]; constructor; [|exact IH].
  unfold project_doc. rewrite !lookup_kept. cbn.
  repeat split. intros k Hk1 Hk2 Hk3. rewrite lookup_kept.
  unfold keeps; cbn [p_fields p_id existsb].
  destruct (String.eqb_spec k "_id"); [reflexivity|].
  destruct (String.eqb_spec k "title"); [contradiction|].
  destruct (String.eqb_spec k "author"); [contradiction|].
  destruct (String.eqb_spec k "price"); [contradiction|reflexivity].
Qed.

(** ** The two orders of Task 3.3 *)

Lemma doc_leb_trans (s : sort_spec) (a b c : doc) :
  doc_leb s a b = true -> doc_leb s b c = true -> doc_leb s a c = true.
Proof.
  unfold doc_leb. destruct (snd s); intros H1 H2.
  - exact (value_leb_trans _ _ _ H1 H2).
  - exact (value_leb_trans _ _ _ H2 H1).
Qed.

Lemma selected_sorted (s : sort_spec) (coll : list doc) :
  selected (sort s (find [])) coll = sort_by (doc_leb s) coll.
Proof.
  unfold selected; cbn [q_limit q_skip q_sort q_filter sort find take skipn
    sort_docs].
  now rewrite (filter_all _ _ matches_nil).
Qed.

Lemma price_shown (coll : list doc) (s : sort_spec) :
  toArray (project {| p_fields := ["title"; "price"]; p_id := false |}
                   (sort s (find []))) coll
  = map (project_doc (Some {| p_fields := ["title"; "price"]; p_id := false |}))
        (sort_by (doc_leb s) coll).
Proof.
  unfold toArray. cbn [q_project project]. f_equal.
  exact (selected_sorted s coll).
Qed.

(** Task 3.3 prints the whole collection twice, rearranged: once with the
    prices never decreasing and once with the prices never increasing.  Each
    printed record carries the stored title and price of its record and no
    _id. *)
Theorem price_orders (coll : list doc) :
  exists up down : list doc,
    Permutation up coll /\ StronglySorted (ascending "price") up /\
    Permutation down coll /\ StronglySorted (descending "price") down /\
    Forall2 (fun d p : doc =>
               lookup "title" p = lookup "title" d /\
               lookup "price" p = lookup "price" d /\
               lookup "_id" p = None)
            up (toArray sorted_asc_query coll) /\
    Forall2 (fun d p : doc =>
               lookup "title" p = lookup "title" d /\
               lookup "price" p = lookup "price" d /\
               lookup "_id" p = None)
            down (toArray sorted_desc_query coll).
Proof.
  exists (sort_by (doc_leb ("price", Asc)) coll),
         (sort_by (doc_leb ("price", Desc)) coll).
  assert (Hshown : forall l : list doc,
             Forall2 (fun d p : doc =>
                        lookup "title" p = lookup "title" d /\
                        lookup "price" p = lookup "price" d /\
                        lookup "_id" p = None)
                     l
                     (map (project_doc
                             (Some {| p_fields := ["title"; "price"];
                                      p_id := false |})) l)).
  { induction l as [|d l IH]; cbn [map]; constructor; [|exact IH].
    unfold project_doc. rewrite !lookup_kept. cbn. repeat split. }
  unfold sorted_asc_query, sorted_desc_query. rewrite !price_shown.
  repeat split; try apply Hshown; try apply sort_by_perm.
  - apply Sorted_StronglySorted.
    + intros a b c. unfold ascending. apply value_leb_trans.
    + apply (sort_by_sorted (doc_leb ("price", Asc))). apply doc_leb_total.
  - apply Sorted_StronglySorted.
    + intros a b c. unfold descending. intros H1 H2.
      exact (value_leb_trans _ _ _ H2 H1).
    + apply (sort_by_sorted (doc_leb ("price", Desc))). apply doc_leb_total.
Qed.

Section SortedUnique.
Context {A : Type} (R : A -> A -> Prop).
Hypothesis R_asym : forall a b, R a b -> R b a -> False.

Lemma sorted_unique (l1 l2 : list A) :
  StronglySorted R l1 -> StronglySorted R l2 -> Permutation l1 l2 -> l1 = l2.
Proof.
  revert l2. induction l1 as [|a l1 IH]; intros l2 H1 H2 Hp.
  - now apply Permutation_nil in Hp.
  - destruct l2 as [|b l2].
    + apply Permutation_sym, Permutation_nil in Hp. discriminate.
    + inversion H1 as [|x l Hs1 Ha]; subst.
      inversion H2 as [|x l Hs2 Hb]; subst.
      rewrite Forall_forall in Ha, Hb.
      assert (Hab : a = b).
      { assert (Hina : In a (b :: l2))
          by (apply (Permutation_in _ Hp); now left).
        assert (Hinb : In b (a :: l1))
          by (apply (Permutation_in _ (Permutation_sym Hp)); now left).
        destruct Hina as [->|Hina]; [reflexivity|].
        destruct Hinb as [->|Hinb]; [reflexivity|].
        exfalso. exact (R_asym a b (Ha b Hinb) (Hb a Hina)). }
      subst b. f_equal. apply IH; try assumption.
      now apply Permutation_cons_inv in Hp.
Qed.
End SortedUnique.

Lemma StronglySorted_snoc {A : Type} (R : A -> A -> Prop) (l : list A) (x : A) :
  StronglySorted R l -> Forall (fun a => R a x) l -> StronglySorted R (l ++ [x]).
Proof.
  induction l as [|a l IH]; cbn [app]; intros Hs Hx.
  - repeat constructor.
  - inversion Hs as [|y l0 Hs' Ha]; subst.
    inversion Hx as [|y l0 Hax Hx']; subst.
    constructor; [now apply IH|].
    apply Forall_app. split; [assumption|]. now constructor.
Qed.

Lemma StronglySorted_rev {A : Type} (R : A -> A -> Prop) (l : list A) :
  StronglySorted R l -> StronglySorted (fun a b => R b a) (rev l).
Proof.
  induction 1 as [|a l Hs IH Ha]; cbn [rev]; [constructor|].
  apply StronglySorted_snoc; [exact IH|].
  apply Forall_rev. exact Ha.
Qed.

Lemma strictly_sorted_field (k : string) (leb : doc -> doc -> bool)
  (lt : doc -> doc -> Prop) (l : list doc) :
  (forall a b, leb a b = true ->
               value_eqb (field k a) (field k b) = false -> lt a b) ->
  StronglySorted (fun a b => leb a b = true) l ->
  distinct_field k l ->
  StronglySorted lt l.
Proof.
  intros Hlt. induction l as [|x l IH]; intros Hs Hd; [constructor|].
  inversion Hs as [|a l0 Hs' Hx]; subst.
  inversion Hd as [|b l1 Hn Hd']; subst.
  constructor; [now apply IH|].
  rewrite Forall_forall in *. intros y Hy. apply Hlt; auto.
Qed.

(** When no two records have equal prices, the descending listing of
    Task 3.3 is the ascending listing read backwards. *)
Theorem price_orders_reverse (coll : list doc) :
  distinct_field "price" coll ->
  selected sorted_desc_query coll = rev (selected sorted_asc_query coll) /\
  toArray sorted_desc_query coll = rev (toArray sorted_asc_query coll).
Proof.
  intros Hd.
  assert (Hsel : sort_by (doc_leb ("price", Desc)) coll
                 = rev (sort_by (doc_leb ("price", Asc)) coll)).
  { set (lt := fun a b : doc =>
                 value_ltb (field "price" b) (field "price" a) = true).
    apply (sorted_unique lt).
    - intros a b. unfold lt, value_ltb.
      rewrite (value_compare_antisym (field "price" a) (field "price" b)).
      destruct (value_compare (field "price" b) (field "price" a));
        cbn; discriminate.
    - apply (strictly_sorted_field "price" (doc_leb ("price", Desc))).
      + intros a b. unfold lt, doc_leb, value_leb, value_eqb, value_ltb.
        cbn [fst snd].
        rewrite (value_compare_antisym (field "price" a) (field "price" b)).
        now destruct (value_compare (field "price" b) (field "price" a)).
      + apply Sorted_StronglySorted.
        * intros a b c. apply doc_leb_trans.
        * apply sort_by_sorted. apply doc_leb_total.
      + apply sort_by_pairs; [|exact Hd].
        intros a b H. now rewrite value_eqb_sym.
    - apply (StronglySorted_rev
               (fun a b => value_ltb (field "price" a) (field "price" b) = true)).
      apply (strictly_sorted_field "price" (doc_leb ("price", Asc))).
      + intros a b. unfold doc_leb, value_leb, value_eqb, value_ltb.
        cbn [fst snd].
        now destruct (value_compare (field "price" a) (field "price" b)).
      + apply Sorted_StronglySorted.
        * intros a b c. apply doc_leb_trans.
        * apply sort_by_sorted. apply doc_leb_total.
      + apply sort_by_pairs; [|exact Hd].
        intros a b H. now rewrite value_eqb_sym.
    - rewrite <- Permutation_rev.
      rewrite (sort_by_perm (doc_leb ("price", Asc)) coll).
      apply sort_by_perm. }
  unfold sorted_asc_query, sorted_desc_query.
  rewrite !price_shown. unfold selected at 1 2.
  cbn [q_limit q_skip q_sort q_filter sort find project take skipn sort_docs].
  rewrite (filter_all _ _ matches_nil).
  split; [exact Hsel|]. now rewrite Hsel, map_rev.
Qed.

(** ** Pagination, whatever order the store gives to equal years *)

(** What [toArray] computes is one of the results the store may return. *)
Lemma toArray_answers (c : cursor) (coll : list doc) :
  answers c coll (toArray c coll).
Proof.
  exists (sort_docs (q_sort c) (List.filter (matches (q_filter c)) coll)).
  split; [|reflexivity].
  unfold may_order, sort_docs. destruct (q_sort c) as [sp|]; [|reflexivity].
  split; [apply sort_by_perm|].
  apply Sorted_StronglySorted.
  - intros a b d. apply doc_leb_trans.
  - apply sort_by_sorted. apply doc_leb_total.
Qed.

Lemma pairs_perm {A : Type} (R : A -> A -> Prop) (l l' : list A) :
  (forall a b, R a b -> R b a) ->
  Permutation l l' -> ForallOrdPairs R l -> ForallOrdPairs R l'.
Proof.
  intros Hsym Hp.
  induction Hp as [|x l l' Hp IH|x y l|l l' l'' _ IH1 _ IH2]; intros H.
  - constructor.
  - inversion H as [|a l0 Hx Hl]; subst. constructor; [|now apply IH].
    exact (Permutation_Forall Hp Hx).
  - inversion H as [|a l0 Hy Hxl]; subst.
    inversion Hy as [|b l1 Hyx Hyl]; subst.
    inversion Hxl as [|c l2 Hx Hl]; subst.
    constructor; [constructor; [now apply Hsym|assumption]|].
    now constructor.
  - auto.
Qed.

Lemma value_leb_antisym (a b : value) :
  value_leb a b = true -> value_leb b a = true -> value_eqb a b = true.
Proof.
  unfold value_leb, value_eqb. rewrite (value_compare_antisym b a).
  now destruct (value_compare a b).
Qed.

(** With no two sort keys equal the store has one order to return. *)
Lemma may_order_unique (s : sort_spec) (l l1 l2 : list doc) :
  distinct_field (fst s) l ->
  may_order (Some s) l l1 -> may_order (Some s) l l2 -> l1 = l2.
Proof.
  unfold distinct_field. intros Hd [Hp1 Hs1] [Hp2 Hs2].
  set (lt := fun a b : doc =>
               doc_leb s a b = true /\
               value_eqb (field (fst s) a) (field (fst s) b) = false).
  assert (Hsym : forall a b : doc,
             value_eqb (field (fst s) a) (field (fst s) b) = false ->
             value_eqb (field (fst s) b) (field (fst s) a) = false)
    by (intros a b H; now rewrite value_eqb_sym).
  apply (sorted_unique lt).
  - intros a b [Hab Hn] [Hba _].
    assert (He : value_eqb (field (fst s) a) (field (fst s) b) = true).
    { unfold doc_leb in Hab, Hba.
      destruct (snd s); now apply value_leb_antisym. }
    congruence.
  - apply (strictly_sorted_field (fst s) (doc_leb s)); [now split|exact Hs1|].
    exact (pairs_perm _ l l1 Hsym (Permutation_sym Hp1) Hd).
  - apply (strictly_sorted_field (fst s) (doc_leb s)); [now split|exact Hs2|].
    exact (pairs_perm _ l l2 Hsym (Permutation_sym Hp2) Hd).
  - now rewrite Hp1, Hp2.
Qed.

(** The results the store may return for a page of Task 3.4. *)
Lemma page_answers (n m : nat) (coll r : list doc) :
  answers (project {| p_fields := ["title"; "published_year"]; p_id := false |}
             (limit m (skip n (sort ("published_year", Asc) (find [])))))
          coll r ->
  exists l' : list doc,
    may_order (Some ("published_year", Asc)) coll l' /\
    r = map (project_doc (q_project sorted_query)) (take m (skipn n l')).
Proof.
  intros (l' & Ho & ->).
  change (may_order (Some ("published_year", Asc))
                    (List.filter (matches []) coll) l') in Ho.
  rewrite (filter_all _ _ matches_nil) in Ho.
  exists l'. now split.
Qed.

Lemma year_shown (d : doc) :
  field "published_year" (project_doc (q_project sorted_query) d)
  = field "published_year" d.
Proof.
  unfold field. cbn [q_project sorted_query project project_doc].
  now rewrite lookup_kept.
Qed.

Lemma distinct_field_shown (k : string) (f : doc -> doc) (l : list doc) :
  (forall d, field k (f d) = field k d) ->
  distinct_field k l -> NoDup (map f l).
Proof.
  intros Hf. unfold distinct_field.
  induction 1 as [|a l Ha Hl IH]; cbn [map]; constructor; [|exact IH].
  intros Hin. apply in_map_iff in Hin as (b & Hb & Hin).
  rewrite Forall_forall in Ha. specialize (Ha b Hin).
  now rewrite <- (Hf a), <- Hb, Hf, value_eqb_refl in Ha.
Qed.

Lemma repeated_across {A : Type} (x : A) (l1 l2 : list A) :
  In x l1 -> In x l2 -> ~ NoDup (l1 ++ l2).
Proof.
  intros H1 H2. induction l1 as [|a l1 IH]; intros Hn; [contradiction|].
  cbn [app] in Hn. inversion Hn as [|b l Hnotin Hn']; subst.
  destruct H1 as [->|H1].
  - apply Hnotin. apply in_or_app. now right.
  - now apply IH.
Qed.

(** Where years are equal C2 fails.  Of the seven books of
    [tied_books] three are of 1950.  The store may answer the query of
    page 1 from the order 1901, 1902, 1903, 1904, E, F, G and the query of
    page 2 from the order 1901, 1902, 1903, 1904, G, F, E: both are in order
    of year.  Page 1 then ends with E and page 2 is F, E: the record E is on
    both pages, the record G on neither, and the two pages put end to end
    are not the first ten records of any sorted sequence of the
    collection. *)
Lemma pagination_tied_years :
  NoDup tied_books /\
  exists r1 r2 : list doc,
    answers page1_query tied_books r1 /\
    answers page2_query tied_books r2 /\
    ~ NoDup (r1 ++ r2) /\
    forall whole : list doc,
      answers sorted_query tied_books whole ->
      r1 ++ r2 <> firstn 10 whole /\
      exists d : doc, In d (firstn 10 whole) /\ ~ In d (r1 ++ r2).
Proof.
  split.
  { apply (NoDup_map_inv (field "_id")). cbn.
    repeat (constructor; [cbn; intuition discriminate|]). constructor. }
  exists (toArray page1_query tied_books),
         (toArray page2_query tied_books_reordered).
  split; [apply toArray_answers|]. split.
  { exists tied_books_reordered. split; [|reflexivity]. split.
    - change (Permutation tied_books_reordered tied_books).
      unfold tied_books_reordered, tied_books. do 4 apply perm_skip.
      exact (Permutation_rev [ book 7 "G" "Gus" "Fiction" 1950 5 true;
                               book 6 "F" "Fay" "Fiction" 1950 5 true;
                               book 5 "E" "Eve" "Fiction" 1950 5 true ]).
    - unfold tied_books_reordered. repeat constructor. }
  split.
  { apply (repeated_across
             [("title", VStr "E"); ("published_year", VNum 1950)]);
      cbn; auto 10. }
  assert (Hg : forall whole : list doc,
             answers sorted_query tied_books whole ->
             exists d : doc,
               In d (firstn 10 whole) /\
               ~ In d (toArray page1_query tied_books
                       ++ toArray page2_query tied_books_reordered)).
  { intros whole Hw.
    apply (page_answers 0 0) in Hw as (l' & [Hp _] & ->).
    cbn [take skipn].
    exists (project_doc (q_project sorted_query)
                        (book 7 "G" "Gus" "Fiction" 1950 5 true)).
    split.
    - rewrite firstn_all2.
      + apply in_map. apply (Permutation_in _ (Permutation_sym Hp)).
        cbn. auto 10.
      + rewrite length_map, (Permutation_length Hp). cbn. lia.
    - cbn. intuition discriminate. }
  intros whole Hw. split; [|now apply Hg].
  intros E. destruct (Hg whole Hw) as (d & Hin & Hout).
  apply Hout. now rewrite E.
Qed.

(** C2. Task 3.4 on a collection in which no two records share a
    published_year.  Whatever the store returns for page 1 (skip 0, limit 5), for page 2
    (skip 5, limit 5) and for the same sorted find without skip and limit:
    the two pages put end to end are the first ten records of the sorted
    sequence, page 1 its first five and page 2 its next five; no record is
    on the two pages twice; the two pages hold ten records, or the whole
    collection when it has fewer; the sorted sequence shows a rearrangement
    of the collection in ascending order of published_year, so that none of
    the first ten is left out.  The three results are those of [toArray]. *)
Theorem pagination_distinct_years (coll r1 r2 whole : list doc) :
  distinct_field "published_year" coll ->
  answers page1_query coll r1 ->
  answers page2_query coll r2 ->
  answers sorted_query coll whole ->
  r1 ++ r2 = firstn 10 whole /\
  r1 = firstn 5 whole /\
  r2 = firstn 5 (skipn 5 whole) /\
  NoDup (r1 ++ r2) /\
  List.length (r1 ++ r2) = Nat.min 10 (List.length coll) /\
  (exists behind : list doc,
      Permutation behind coll /\
      StronglySorted (ascending "published_year") behind /\
      whole = map (project_doc (q_project sorted_query)) behind) /\
  r1 = toArray page1_query coll /\
  r2 = toArray page2_query coll /\
  whole = toArray sorted_query coll.
Proof.
  intros Hd A1 A2 Aw.
  assert (Hone : forall (n m : nat) (r : list doc),
             answers (project {| p_fields := ["title"; "published_year"];
                                 p_id := false |}
                        (limit m (skip n (sort ("published_year", Asc)
                                               (find [])))))
                     coll r ->
             r = map (project_doc (q_project sorted_query))
                     (take m (skipn n (sort_by (doc_leb ("published_year", Asc))
                                               coll)))).
  { intros n m r Hr.
    apply page_answers in Hr as (l' & Ho & ->).
    destruct (page_answers 0 0 coll _
                (toArray_answers (project {| p_fields := ["title"; "published_year"];
                                             p_id := false |}
                                    (limit 0 (skip 0 (sort ("published_year", Asc)
                                                           (find []))))) coll))
      as (l0 & Ho0 & E0).
    assert (El : l' = l0)
      by exact (may_order_unique ("published_year", Asc) coll l' l0 Hd Ho Ho0).
    subst l0.
    unfold toArray, selected in E0.
    cbn [q_project q_limit q_skip q_sort q_filter project limit skip sort find
         take skipn sort_docs] in E0.
    rewrite (filter_all _ _ matches_nil) in E0.
    assert (Hinj : sort_by (doc_leb ("published_year", Asc)) coll = l').
    { apply (may_order_unique ("published_year", Asc) coll); [exact Hd| |exact Ho].
      split; [apply sort_by_perm|].
      apply Sorted_StronglySorted.
      - intros a b d. apply doc_leb_trans.
      - apply sort_by_sorted. apply doc_leb_total. }
    now rewrite Hinj. }
  set (s := sort_by (doc_leb ("published_year", Asc)) coll) in Hone.
  set (shown := project_doc (q_project sorted_query)) in *.
  assert (Hp : Permutation s coll) by apply sort_by_perm.
  assert (T1 : toArray page1_query coll = map shown (firstn 5 s)).
  { unfold toArray, selected, page1_query.
    cbn [q_project q_limit q_skip q_sort q_filter project limit skip sort find
         take skipn sort_docs].
    now rewrite (filter_all _ _ matches_nil). }
  assert (T2 : toArray page2_query coll = map shown (firstn 5 (skipn 5 s))).
  { unfold toArray, selected, page2_query.
    cbn [q_project q_limit q_skip q_sort q_filter project limit skip sort find
         take sort_docs].
    now rewrite (filter_all _ _ matches_nil). }
  assert (Tw : toArray sorted_query coll = map shown s).
  { unfold toArray, selected, sorted_query.
    cbn [q_project q_limit q_skip q_sort q_filter project limit skip sort find
         take skipn sort_docs].
    now rewrite (filter_all _ _ matches_nil). }
  apply (Hone 0 5) in A1. apply (Hone 5 5) in A2. apply (Hone 0 0) in Aw.
  cbn [take skipn] in A1, Aw. cbn [take] in A2.
  rewrite T1, T2, Tw. subst r1 r2 whole.
  split; [|split; [|split; [|split; [|split; [|split]]]]].
  - rewrite <- map_app, (firstn_pages 5 5). now rewrite firstn_map.
  - now rewrite firstn_map.
  - now rewrite skipn_map, firstn_map.
  - rewrite <- map_app, (firstn_pages 5 5), <- firstn_map.
    apply NoDup_firstn.
    apply (distinct_field_shown "published_year"); [apply year_shown|].
    apply sort_by_pairs; [|exact Hd].
    intros a b H. now rewrite value_eqb_sym.
  - rewrite <- map_app, (firstn_pages 5 5), length_map, length_firstn.
    now rewrite (Permutation_length Hp).
  - exists s. split; [exact Hp|]. split; [|reflexivity].
    apply Sorted_StronglySorted.
    + intros a b c. unfold ascending. apply value_leb_trans.
    + apply (sort_by_sorted (doc_leb ("published_year", Asc))).
      apply doc_leb_total.
  - repeat split.
Qed.

Lemma sample_years_distinct : distinct_field "published_year" sample_books.
Proof. repeat constructor. Qed.

Lemma pagination_distinct_years_witness :
  distinct_field "published_year" sample_books /\
  toArray page1_query sample_books ++ toArray page2_query sample_books
  = firstn 10 (toArray sorted_query sample_books) /\
  NoDup (toArray page1_query sample_books ++ toArray page2_query sample_books) /\
  List.length (toArray page1_query sample_books
               ++ toArray page2_query sample_books) = 10.
Proof.
  split; [exact sample_years_distinct|].
  destruct (pagination_distinct_years sample_books
              (toArray page1_query sample_books)
              (toArray page2_query sample_books)
              (toArray sorted_query sample_books)
              sample_years_distinct
              (toArray_answers page1_query sample_books)
              (toArray_answers page2_query sample_books)
              (toArray_answers sorted_query sample_books))
    as (Hcat & _ & _ & Hn & Hl & _).
  split; [exact Hcat|]. split; [exact Hn|exact Hl].
Defined.

(** ** Years that are not numbers *)

(** Without numeric years C3 fails.  On a record with its year stored as
    text [$mod] rejects the text: the aggregation throws and returns no
    record, so no bucket is formed for the record. *)
Lemma decade_buckets_text_year :
  year_ok [("title", VStr "Untitled"); ("published_year", VStr "1937")] = false /\
  aggregate decade_pipeline
    [[("title", VStr "Untitled"); ("published_year", VStr "1937")]]
  = Throw (type_error "$mod") /\
  forall out : list doc,
    aggregate decade_pipeline
      [[("title", VStr "Untitled"); ("published_year", VStr "1937")]]
    <> Ok out.
Proof. split; [reflexivity|]. split; [reflexivity|]. discriminate. Qed.

(** Without numeric years C4 fails for the grouping by decade: the
    grouping by genre and the grouping by author
    of [text_year_books] count its two records, the grouping by decade
    throws and forms no group whose counts could be added up. *)
Lemma decade_counts_text_year :
  List.length text_year_books = 2 /\
  (exists groups : list doc,
      run_stage genre_grouping text_year_books = Ok groups /\
      (sum_field "bookCount" groups == 2)%Q) /\
  (exists groups : list doc,
      run_stage author_grouping text_year_books = Ok groups /\
      (sum_field "numberOfBooks" groups == 2)%Q) /\
  run_stage decade_grouping text_year_books = Throw (type_error "$mod") /\
  (forall groups : list doc,
      run_stage decade_grouping text_year_books <> Ok groups) /\
  (forall out : list doc,
      aggregate decade_pipeline text_year_books <> Ok out).
Proof.
  split; [reflexivity|].
  split; [eexists; split; [reflexivity|reflexivity]|].
  split; [eexists; split; [reflexivity|reflexivity]|].
  split; [reflexivity|]. split; discriminate.
Qed.

(** ** The rankings of Task 4 *)

Lemma pairs_of_map {A B : Type} (f : A -> B) (R : B -> B -> Prop) (l : list A) :
  ForallOrdPairs (fun a b => R (f a) (f b)) l -> ForallOrdPairs R (map f l).
Proof.
  induction 1 as [|a l Ha Hl IH]; cbn [map]; constructor; [|exact IH].
  now rewrite Forall_map.
Qed.

(** Task 4.1 returns one row per genre present in the collection: no two
    rows have the same _id, the _id of a row is the genre of some record,
    and every record finds the row of its genre.  A row has the fields _id,
    averagePrice and bookCount, and bookCount is the number of records of
    the genre.  (Nothing is said of the value of averagePrice nor of the
    order of the rows, which rest on the rounding of the mean.) *)
Theorem genre_rows (coll : list doc) :
  exists out : list doc,
    aggregate genre_pipeline coll = Ok out /\
    distinct_field "_id" out /\
    (forall r : doc,
        In r out ->
        map fst r = ["_id"; "averagePrice"; "bookCount"] /\
        (exists d : doc, In d coll /\ field "genre" d = field "_id" r) /\
        field "bookCount" r
        = as_count
            (List.length
               (List.filter (in_bucket (field "genre") (field "_id" r)) coll))) /\
    (forall d : doc,
        In d coll ->
        exists r : doc,
          In r out /\ value_eqb (field "genre" d) (field "_id" r) = true).
Proof.
  set (bs := buckets (map (fun d => (field "genre" d, d)) coll)).
  destruct (buckets_grouped (field "genre") coll) as (Hk & Hb & Hc).
  fold bs in Hk, Hb, Hc. rewrite Forall_forall in Hb, Hc.
  assert (Hperm : Permutation (sort_by mean_leb bs) bs) by apply sort_by_perm.
  exists (map genre_row (sort_by mean_leb bs)).
  split; [|split; [|split]].
  - unfold genre_pipeline. cbn [aggregate].
    replace (run_stage genre_grouping coll) with (Ok (map genre_row bs)).
    + cbn [obind run_stage aggregate]. now rewrite sort_by_map.
    + symmetry. apply group_stage_run; [reflexivity|apply genre_group_doc].
  - apply (pairs_of_map genre_row
             (fun a b => value_eqb (field "_id" a) (field "_id" b) = false)).
    apply (sort_by_pairs mean_leb
             (fun a b => value_eqb (fst a) (fst b) = false)).
    + intros a b H. now rewrite value_eqb_sym.
    + exact (pairs_map fst (fun a b => value_eqb a b = false) bs Hk).
  - intros r Hr. apply in_map_iff in Hr as (g & <- & Hg).
    apply (Permutation_in _ Hperm) in Hg.
    destruct (Hb g Hg) as (Hs & d & Hd & Hkd).
    split; [reflexivity|]. split; [now exists d|].
    change (field "_id" (genre_row g)) with (fst g).
    change (field "bookCount" (genre_row g))
      with (as_count (List.length (snd g))).
    now rewrite Hs at 1.
  - intros d Hd. specialize (Hc d Hd).
    apply existsb_exists in Hc as (k & Hk' & He).
    apply in_map_iff in Hk' as (g & <- & Hg).
    exists (genre_row g). split; [|exact He].
    apply in_map. now apply (Permutation_in _ (Permutation_sym Hperm)).
Qed.

Lemma as_count_leb (m n : nat) :
  value_leb (as_count m) (as_count n) = true <-> m <= n.
Proof.
  unfold value_leb, as_count.
  change (value_compare (VNum (inject_Z (Z.of_nat m)))
                        (VNum (inject_Z (Z.of_nat n))))
    with (Qcompare (inject_Z (Z.of_nat m)) (inject_Z (Z.of_nat n))).
  split.
  - intros H. apply Nat2Z.inj_le. rewrite Zle_Qle. apply Qle_alt.
    intros E. now rewrite E in H.
  - intros H. apply Nat2Z.inj_le in H. rewrite Zle_Qle in H.
    apply Qle_alt in H.
    destruct (Qcompare (inject_Z (Z.of_nat m)) (inject_Z (Z.of_nat n)))
      eqn:E; [reflexivity|reflexivity|].
    exfalso. apply H. exact E.
Qed.

Lemma in_bucket_congr (key : doc -> value) (a b : value) (coll : list doc) :
  value_eqb a b = true ->
  List.filter (in_bucket key a) coll = List.filter (in_bucket key b) coll.
Proof.
  intros H. apply filter_ext. intros d. unfold in_bucket.
  rewrite (value_eqb_sym (key d) a), (value_eqb_sym (key d) b).
  now apply value_eqb_congr.
Qed.

(** Task 4.2 returns nothing on an empty collection and otherwise exactly
    one row: an author of the collection with the number of records by that
    author, and no author of the collection has more records. *)
Theorem top_author (coll : list doc) :
  (coll = [] -> aggregate author_pipeline coll = Ok []) /\
  (coll <> [] ->
   exists (a : value) (n : nat),
     aggregate author_pipeline coll
     = Ok [[("_id", a); ("numberOfBooks", as_count n)]] /\
     n = books_by coll a /\
     0 < n /\
     (exists d : doc, In d coll /\ a = field "author" d) /\
     (forall d : doc, In d coll -> books_by coll (field "author" d) <= n)).
Proof.
  set (bs := buckets (map (fun d => (field "author" d, d)) coll)).
  assert (Hrun : aggregate author_pipeline coll
                 = Ok (map (counted "numberOfBooks")
                           (firstn 1 (sort_by size_leb bs)))).
  { unfold author_pipeline. cbn [aggregate].
    replace (run_stage author_grouping coll)
      with (Ok (map (counted "numberOfBooks") bs)).
    - cbn [obind run_stage aggregate]. now rewrite sort_by_map, firstn_map.
    - symmetry. apply group_stage_run; [reflexivity|apply count_group_doc]. }
  split.
  - intros ->. exact Hrun.
  - intros Hne.
    destruct (buckets_grouped (field "author") coll) as (Hk & Hb & Hc).
    fold bs in Hk, Hb, Hc. rewrite Forall_forall in Hb, Hc.
    pose proof (sort_by_perm size_leb bs) as Hperm.
    assert (Hsorted : StronglySorted (fun a b => size_leb a b = true)
                                     (sort_by size_leb bs)).
    { apply Sorted_StronglySorted.
      - intros a b c H1 H2. exact (value_leb_trans _ _ _ H2 H1).
      - apply (sort_by_sorted size_leb).
        intros a b. unfold size_leb. apply value_leb_total. }
    destruct (sort_by size_leb bs) as [|g0 rest] eqn:Es.
    + (* a collection with records has a bucket *)
      exfalso. apply Permutation_nil in Hperm.
      pose proof (groups_total (field "author") coll) as Hsz.
      fold bs in Hsz. rewrite Hperm in Hsz. cbn in Hsz.
      destruct coll; [now apply Hne|discriminate].
    + assert (Hg0 : In g0 bs)
        by (apply (Permutation_in _ Hperm); now left).
      destruct (Hb g0 Hg0) as (Hs0 & d0 & Hd0 & Hk0).
      exists (fst g0), (List.length (snd g0)).
      split; [rewrite Hrun; reflexivity|].
      split; [unfold books_by; now rewrite Hs0|].
      split.
      { assert (Hi : In d0 (snd g0)).
        { rewrite Hs0. apply filter_In. split; [assumption|].
          unfold in_bucket. rewrite Hk0. apply value_eqb_refl. }
        destruct (snd g0); [contradiction|cbn; lia]. }
      split; [now exists d0|].
      intros d Hd. specialize (Hc d Hd).
      apply existsb_exists in Hc as (k & Hk' & He).
      apply in_map_iff in Hk' as (g & <- & Hg).
      unfold books_by. rewrite (in_bucket_congr _ _ _ coll He).
      destruct (Hb g Hg) as (Hs & _). rewrite <- Hs.
      apply (Permutation_in _ (Permutation_sym Hperm)) in Hg.
      destruct Hg as [->|Hg]; [lia|].
      inversion Hsorted as [|x l _ Hall]; subst.
      rewrite Forall_forall in Hall. specialize (Hall g Hg).
      unfold size_leb in Hall. now apply as_count_leb in Hall.
Qed.

(** ** Task 2 on any collection *)

Lemma updateOne_length (f : filter) (k : string) (v : value) (coll : list doc) :
  List.length (updateOne f k v coll) = List.length coll.
Proof.
  induction coll as [|d coll IH]; cbn [updateOne List.length]; [reflexivity|].
  destruct (matches f d); cbn [List.length]; congruence.
Qed.

Lemma delete_count_min (f : filter) (coll : list doc) :
  delete_count f coll = Nat.min 1 (count f coll).
Proof.
  unfold delete_count, count.
  induction coll as [|d coll IH]; cbn [existsb List.filter]; [reflexivity|].
  destruct (matches f d); cbn [orb List.length]; [reflexivity|exact IH].
Qed.

Lemma deleteOne_length (f : filter) (coll : list doc) :
  List.length (deleteOne f coll) + Nat.min 1 (count f coll) = List.length coll.
Proof.
  unfold count.
  induction coll as [|d coll IH]; cbn [deleteOne List.filter List.length];
    [reflexivity|].
  destruct (matches f d); cbn [List.length]; lia.
Qed.

Lemma deleteOne_count (f : filter) (coll : list doc) :
  count f (deleteOne f coll) = count f coll - 1.
Proof.
  unfold count.
  induction coll as [|d coll IH]; cbn [deleteOne List.filter List.length];
    [reflexivity|].
  destruct (matches f d) eqn:E; cbn [List.filter List.length]; [lia|].
  now rewrite E.
Qed.

Section OtherFilter.
Variables (f g : filter) (k : string) (v : value).
Hypothesis blind : forall d, matches g (set_field k v d) = matches g d.
Hypothesis apart : forall d, matches f d = true -> matches g d = false.

Lemma updateOne_count_other (coll : list doc) :
  count g (updateOne f k v coll) = count g coll.
Proof.
  unfold count.
  induction coll as [|d coll IH]; cbn [updateOne List.filter]; [reflexivity|].
  destruct (matches f d); cbn [List.filter].
  - rewrite blind. now destruct (matches g d).
  - destruct (matches g d); cbn [List.length]; now rewrite IH.
Qed.

Lemma deleteOne_count_other (coll : list doc) :
  count g (deleteOne f coll) = count g coll.
Proof.
  unfold count.
  induction coll as [|d coll IH]; cbn [deleteOne List.filter]; [reflexivity|].
  destruct (matches f d) eqn:E; cbn [List.filter].
  - now rewrite (apart d E).
  - destruct (matches g d); cbn [List.length]; now rewrite IH.
Qed.

Lemma findOne_deleteOne_other (coll : list doc) :
  findOne g (deleteOne f coll) = findOne g coll.
Proof.
  unfold findOne.
  induction coll as [|d coll IH]; cbn [deleteOne List.find]; [reflexivity|].
  destruct (matches f d) eqn:E; cbn [List.find].
  - now rewrite (apart d E).
  - now rewrite IH.
Qed.
End OtherFilter.

Lemma updateOne_count_same (f : filter) (k : string) (v : value)
  (coll : list doc) :
  (forall d, matches f (set_field k v d) = matches f d) ->
  count f (updateOne f k v coll) = count f coll.
Proof.
  intros blind. unfold count.
  induction coll as [|d coll IH]; cbn [updateOne List.filter]; [reflexivity|].
  destruct (matches f d) eqn:E; cbn [List.filter].
  - now rewrite blind, E.
  - now rewrite E.
Qed.

Lemma updateOne_deleteOne (f g : filter) (k : string) (v : value)
  (coll : list doc) :
  (forall d, matches g (set_field k v d) = matches g d) ->
  (forall d, matches f d = true -> matches g d = false) ->
  updateOne f k v (deleteOne g coll) = deleteOne g (updateOne f k v coll).
Proof.
  intros blind apart.
  induction coll as [|d coll IH]; cbn [deleteOne updateOne]; [reflexivity|].
  destruct (matches g d) eqn:Eg.
  - destruct (matches f d) eqn:Ef.
    + now rewrite (apart d Ef) in Eg.
    + cbn [deleteOne]. now rewrite Eg.
  - cbn [updateOne]. destruct (matches f d) eqn:Ef; cbn [deleteOne].
    + now rewrite blind, Eg.
    + now rewrite Eg, IH.
Qed.

Lemma updateOne_first (f : filter) (k : string) (v : value) (coll : list doc)
  (d : doc) :
  findOne f coll = Some d ->
  exists l1 l2 : list doc,
    coll = l1 ++ d :: l2 /\ count f l1 = 0 /\
    updateOne f k v coll = l1 ++ set_field k v d :: l2 /\
    deleteOne f coll = l1 ++ l2.
Proof.
  unfold findOne, count.
  induction coll as [|x coll IH]; cbn [List.find updateOne deleteOne];
    [discriminate|].
  destruct (matches f x) eqn:E.
  - intros H. inversion H; subst x. exists [], coll. now repeat split.
  - intros H. destruct (IH H) as (l1 & l2 & -> & Hc & Hu & Hd).
    exists (x :: l1), l2. cbn [app List.filter]. rewrite E, Hu, Hd.
    now repeat split.
Qed.

Lemma hobbit_not_moby (d : doc) :
  matches hobbit d = true -> matches moby_dick d = false.
Proof.
  unfold hobbit, moby_dick. rewrite matches_title. intros H.
  destruct (matches [("title", CEq (VStr "Moby Dick"))] d) eqn:E;
    [|reflexivity].
  apply matches_title in E. rewrite H in E. discriminate.
Qed.

Lemma moby_not_hobbit (d : doc) :
  matches moby_dick d = true -> matches hobbit d = false.
Proof.
  intros H. destruct (matches hobbit d) eqn:E; [|reflexivity].
  apply hobbit_not_moby in E. congruence.
Qed.

Lemma count_none_findOne (f : filter) (coll : list doc) :
  count f coll = 0 -> findOne f coll = None.
Proof.
  unfold count, findOne.
  induction coll as [|d coll IH]; cbn [List.filter List.find]; [reflexivity|].
  destruct (matches f d); [discriminate|exact IH].
Qed.

Lemma deleteOne_no_match (f : filter) (coll : list doc) :
  count f coll = 0 -> deleteOne f coll = coll.
Proof.
  unfold count.
  induction coll as [|d coll IH]; cbn [List.filter deleteOne]; [reflexivity|].
  destruct (matches f d); [discriminate|]. intros H. now rewrite IH.
Qed.

(** An uninterrupted Task 2 on any collection: it removes one record when
    some record is titled 'Moby Dick' and none otherwise, and of several
    records titled 'Moby Dick' it removes one only; it reprices the first
    record titled 'The Hobbit' and leaves every other record, also a second
    'The Hobbit', as it is; without either title the collection is left as
    it was. *)
Theorem task2_any_collection (w : world) :
  faults w = [] ->
  fst (runTask2 w) = Ok tt /\
  List.length (books (snd (runTask2 w)))
  + Nat.min 1 (count moby_dick (books w))
  = List.length (books w) /\
  count moby_dick (books (snd (runTask2 w))) = count moby_dick (books w) - 1 /\
  count hobbit (books (snd (runTask2 w))) = count hobbit (books w) /\
  (count hobbit (books w) = 0 -> count moby_dick (books w) = 0 ->
   books (snd (runTask2 w)) = books w) /\
  (forall d : doc,
      findOne hobbit (books w) = Some d ->
      exists l1 l2 : list doc,
        books w = l1 ++ d :: l2 /\
        count hobbit l1 = 0 /\
        books (snd (runTask2 w))
        = deleteOne moby_dick (l1 ++ set_field "price" (VNum 15.99) d :: l2)).
Proof.
  intros Hf. destruct (runTask2_run w Hf) as [before ->].
  cbn [fst snd books]. unfold reprice.
  assert (Hblind : forall d, matches moby_dick (set_field "price" (VNum 15.99) d)
                             = matches moby_dick d)
    by (intros d; apply matches_title_set_price).
  assert (Hcm : count moby_dick (updateOne hobbit "price" (VNum 15.99) (books w))
                = count moby_dick (books w))
    by (apply updateOne_count_other; exact Hblind).
  split; [reflexivity|]. split; [|split; [|split; [|split]]].
  - rewrite <- Hcm, deleteOne_length. apply updateOne_length.
  - now rewrite deleteOne_count, Hcm.
  - rewrite (deleteOne_count_other moby_dick hobbit) by exact moby_not_hobbit.
    apply updateOne_count_same. intros d. apply matches_title_set_price.
  - intros Hh Hm.
    rewrite (updateOne_no_match _ _ _ _ (count_none_findOne _ _ Hh)).
    now apply deleteOne_no_match.
  - intros d Hd.
    destruct (updateOne_first hobbit "price" (VNum 15.99) (books w) d Hd)
      as (l1 & l2 & Hc & Hn & Hu & _).
    exists l1, l2. now rewrite Hu.
Qed.

Lemma update_matched_min (f : filter) (coll : list doc) :
  update_matched f coll = Nat.min 1 (count f coll).
Proof.
  unfold update_matched, findOne, count.
  induction coll as [|d coll IH]; cbn [List.find List.filter]; [reflexivity|].
  destruct (matches f d); [reflexivity|exact IH].
Qed.

Lemma task2_books_any (coll : list doc) :
  reprice (deleteOne moby_dick (reprice coll)) = deleteOne moby_dick (reprice coll) /\
  count moby_dick (deleteOne moby_dick (reprice coll)) = count moby_dick coll - 1 /\
  count hobbit (deleteOne moby_dick (reprice coll)) = count hobbit coll /\
  findOne hobbit (deleteOne moby_dick (reprice coll))
  = option_map (set_field "price" (VNum 15.99)) (findOne hobbit coll).
Proof.
  unfold reprice.
  assert (Hb : forall t d, matches [("title", CEq (VStr t))]
                             (set_field "price" (VNum 15.99) d)
                           = matches [("title", CEq (VStr t))] d)
    by (intros t d; apply matches_title_set_price).
  repeat split.
  - rewrite updateOne_deleteOne.
    + now rewrite updateOne_twice by apply Hb.
    + apply Hb.
    + exact hobbit_not_moby.
  - rewrite deleteOne_count. f_equal.
    apply updateOne_count_other. apply Hb.
  - rewrite (deleteOne_count_other moby_dick hobbit) by exact moby_not_hobbit.
    apply updateOne_count_same. apply Hb.
  - rewrite (findOne_deleteOne_other moby_dick hobbit) by exact moby_not_hobbit.
    apply findOne_updateOne. apply Hb.
Qed.

(** Running Task 2 a second time, uninterrupted, on what the first run left
    (with at most one 'Moby Dick' in the beginning): the collection stays as
    the first run left it, the update still matches 'The Hobbit' when there
    is one but modifies nothing, and the delete removes nothing. *)
Theorem task2_rerun (w : world) :
  faults w = [] ->
  count moby_dick (books w) <= 1 ->
  faults (snd (runTask2 w)) = [] /\
  fst (runTask2 (snd (runTask2 w))) = Ok tt /\
  books (snd (runTask2 (snd (runTask2 w)))) = books (snd (runTask2 w)) /\
  exists before : list entry,
    console (snd (runTask2 (snd (runTask2 w))))
    = console (snd (runTask2 w)) ++ before
      ++ [ marker "Task 2.4: Update price of 'The Hobbit'";
           LogValue (UpdateResult (Nat.min 1 (count hobbit (books w))) 0) ]
      ++ printed "Task 2.4: Verifying update for 'The Hobbit'"
           (match findOne hobbit (books (snd (runTask2 w))) with
            | Some d => Obj d
            | None => Null
            end)
      ++ [ marker "Task 2.5: Delete 'Moby Dick'"; LogValue (DeleteResult 0) ].
Proof.
  intros Hf Hm. destruct (runTask2_run w Hf) as [before1 ->].
  cbn [snd faults books console].
  set (c1 := deleteOne moby_dick (reprice (books w))).
  set (w1 := {| books := c1; indexes := indexes w; console := _;
                trace := _; faults := []; connected := connected w |}).
  destruct (task2_books_any (books w)) as (Hre & Hcm & Hch & Hfind).
  fold c1 in Hre, Hcm, Hch, Hfind.
  assert (Hdel : deleteOne moby_dick c1 = c1)
    by (apply deleteOne_no_match; lia).
  destruct (runTask2_run w1 eq_refl) as [before2 ->].
  cbn [fst snd books console]. subst w1. cbn [books console].
  rewrite Hre, Hdel.
  split; [reflexivity|]. split; [reflexivity|]. split; [reflexivity|].
  exists before2. do 2 f_equal. unfold printed at 1 3. cbn [app].
  rewrite update_matched_min, Hch, delete_count_min, Hcm.
  replace (update_modified hobbit "price" (VNum 15.99) c1) with 0.
  - replace (count moby_dick (books w) - 1) with 0 by lia. reflexivity.
  - unfold update_modified. rewrite Hfind.
    destruct (findOne hobbit (books w)); cbn [option_map]; [|reflexivity].
    now rewrite lookup_set_same, value_eqb_refl.
Qed.

(** ** The order of the driver calls *)

Lemma issues_quiet {A : Type} (m : M A) : quiet m -> issues m [].
Proof.
  intros H w. exists 0. rewrite H. cbn [firstn]. rewrite app_nil_r.
  now repeat split.
Qed.

Lemma issues_bind {A B : Type} (m : M A) (k : A -> M B) (cs1 cs2 : list call) :
  issues m cs1 -> (forall a, issues (k a) cs2) -> issues (bind m k) (cs1 ++ cs2).
Proof.
  intros Hm Hk w. destruct (Hm w) as (k1 & Hk1 & Ht1 & Hf1). unfold bind.
  destruct (m w) as [[a|e] w1]; cbn [fst snd] in *.
  - rewrite (Hf1 a eq_refl) in Ht1. rewrite firstn_all in Ht1.
    destruct (Hk a w1) as (k2 & Hk2 & Ht2 & Hf2).
    exists (List.length cs1 + k2). rewrite length_app. split; [lia|]. split.
    + rewrite Ht2, Ht1, firstn_app_2. now rewrite app_assoc.
    + intros b Hb. now rewrite (Hf2 b Hb).
  - exists k1. rewrite length_app. split; [lia|]. split.
    + rewrite Ht1, firstn_app.
      replace (k1 - List.length cs1) with 0 by lia.
      cbn [firstn]. now rewrite app_nil_r.
    + discriminate.
Qed.

Lemma issues_await {A : Type} (c : call) (serve : M A) :
  quiet serve -> issues (await c serve) [c].
Proof.
  intros Hs w. exists 1. split; [reflexivity|]. split; [|reflexivity].
  unfold await. destruct (pending w); [reflexivity|].
  now rewrite Hs.
Qed.

Lemma issues_await_write {A : Type} (c : call) (serve : M A) :
  quiet serve -> issues (await_write c serve) [c].
Proof.
  intros Hs w. exists 1. split; [reflexivity|]. split; [|reflexivity].
  unfold await_write. destruct (pending w) as [e|]; cbn [snd].
  - destruct (applied e); [now rewrite Hs|reflexivity].
  - now rewrite Hs.
Qed.

Lemma issues_eq {A : Type} (m : M A) (cs cs' : list call) :
  issues m cs -> cs = cs' -> issues m cs'.
Proof. now intros H <-. Qed.

Lemma quiet_console_log (e : entry) : quiet (console_log e).
Proof. intros w. reflexivity. Qed.

Lemma quiet_printResult (title : string) (r : jsresult) :
  quiet (printResult title r).
Proof. intros w. now rewrite printResult_run. Qed.

Lemma quiet_analyzePlan (title : string) (p : explainPlan) :
  quiet (analyzePlan title p).
Proof. intros w. now rewrite analyzePlan_lines. Qed.

Lemma issues_toArray (c : cursor) : issues (await_toArray c) [CToArray c].
Proof. apply issues_await. intros w. reflexivity. Qed.

Lemma issues_updateOne (f : filter) (k : string) (v : value) :
  issues (await_updateOne f k v) [CUpdateOne f k v].
Proof. apply issues_await_write. intros w. reflexivity. Qed.

Lemma issues_findOne (f : filter) : issues (await_findOne f) [CFindOne f].
Proof. apply issues_await. intros w. reflexivity. Qed.

Lemma issues_deleteOne (f : filter) : issues (await_deleteOne f) [CDeleteOne f].
Proof. apply issues_await_write. intros w. reflexivity. Qed.

Lemma issues_aggregate (p : list stage) :
  issues (await_aggregate p) [CAggregate p].
Proof.
  apply issues_await. intros w. now destruct (aggregate p (books w)).
Qed.

Lemma issues_explain
  (planner : list index_keys -> list doc -> filter -> explainPlan)
  (f : filter) :
  issues (await_explain planner f) [CExplain f].
Proof. apply issues_await. intros w. reflexivity. Qed.

Lemma issues_index_attempt (ok err : string) (keys : index_keys) :
  issues
    (try_catch
       (r <- await_createIndex keys ;; console_log (LogWith ok r))
       (fun e => console_log (ErrorWith err (message e))))
    [CCreateIndex keys].
Proof.
  intros w. exists 1. split; [reflexivity|]. split; [|reflexivity].
  rewrite index_attempt. cbn [snd]. rewrite trace_emit.
  now rewrite (proj1 (proj2 (proj2 (indexed_frame _ _ _)))).
Qed.

Ltac calls :=
  repeat first
    [ apply issues_quiet; first [ apply quiet_console_log
                                | apply quiet_printResult
                                | apply quiet_analyzePlan ]
    | apply issues_toArray | apply issues_updateOne | apply issues_findOne
    | apply issues_deleteOne | apply issues_aggregate | apply issues_explain
    | apply issues_index_attempt
    | eapply issues_bind; [|intros ?] ].

Lemma issues_runTask2 : issues runTask2 task2_calls.
Proof. eapply issues_eq; [unfold runTask2; calls|reflexivity]. Qed.

Lemma issues_runTask3 : issues runTask3 task3_calls.
Proof. eapply issues_eq; [unfold runTask3; calls|reflexivity]. Qed.

Lemma issues_runTask4 : issues runTask4 task4_calls.
Proof. eapply issues_eq; [unfold runTask4; calls|reflexivity]. Qed.

Lemma issues_runTask5
  (planner : list index_keys -> list doc -> filter -> explainPlan) :
  issues (runTask5 planner) task5_calls.
Proof. eapply issues_eq; [unfold runTask5; calls|reflexivity]. Qed.

Lemma issues_connect : issues connect [CConnect].
Proof. apply issues_await. intros w. reflexivity. Qed.

Lemma issues_workflow
  (planner : list index_keys -> list doc -> filter -> explainPlan) :
  issues (workflow planner) script_calls.
Proof.
  eapply issues_eq.
  - unfold workflow.
    eapply issues_bind; [apply issues_connect|intros ?].
    eapply issues_bind; [apply issues_quiet, quiet_console_log|intros ?].
    eapply issues_bind; [apply issues_runTask2|intros ?].
    eapply issues_bind; [apply issues_runTask3|intros ?].
    eapply issues_bind; [apply issues_runTask4|intros ?].
    apply issues_runTask5.
  - reflexivity.
Qed.

(** Whatever the store answers and whatever the collection holds, [main]
    issues its driver calls in one fixed order: the connection, the six
    calls of Task 2, the six of Task 3, the three of Task 4, the four of
    Task 5.  A run is a beginning of that sequence, cut where a statement
    threw, and then the close; a run whose try block completes is the whole
    sequence. *)
Theorem calls_in_order
  (planner : list index_keys -> list doc -> filter -> explainPlan)
  (w : world) :
  exists k : nat,
    k <= List.length script_calls /\
    trace (snd (main planner w)) = trace w ++ firstn k script_calls ++ [CClose] /\
    (forall wb : world, workflow planner w = (Ok tt, wb) ->
                        k = List.length script_calls) /\
    List.length script_calls = 20.
Proof.
  destruct (issues_workflow planner w) as (k & Hk & Ht & Hf).
  exists k. split; [exact Hk|]. split; [|split; [|reflexivity]].
  - rewrite main_run. cbn [snd].
    destruct (workflow planner w) as [[[]|e] wb]; cbn [snd] in Ht;
      rewrite trace_emit; cbn [close snd trace];
      rewrite ?trace_emit, Ht; now rewrite app_assoc.
  - intros wb Hw. apply (Hf tt). now rewrite Hw.
Qed.

(** ** A connection that fails *)

(** When the store rejects the connection, [main] issues no query: it
    prints the error and the closing message, and connect and close are its
    only calls; the collection and the indexes are as they were. *)
Theorem connect_failure
  (planner : list index_keys -> list doc -> filter -> explainPlan)
  (w : world) (e : error) :
  pending w = Some e ->
  main planner w
  = (Ok tt,
     {| books := books w;
        indexes := indexes w;
        console := console w ++ [ErrorObj "An error occurred:" e; closing_message];
        trace := trace w ++ [CConnect; CClose];
        faults := tl (faults w);
        connected := false |}).
Proof.
  intros Hp. rewrite main_run, workflow_steps.
  unfold connect. rewrite (await_reject _ _ _ e Hp).
  unfold emit, issue, with_console, close, closing_message.
  cbn [snd books indexes console trace faults connected].
  now rewrite <- !app_assoc.
Qed.

Lemma connect_failure_witness :
  pending (start sample_books [Some timeout_error]) = Some timeout_error /\
  console (snd (main sample_planner (start sample_books [Some timeout_error])))
  = [ErrorObj "An error occurred:" timeout_error; closing_message] /\
  trace (snd (main sample_planner (start sample_books [Some timeout_error])))
  = [CConnect; CClose].
Proof.
  split; [reflexivity|].
  rewrite (connect_failure sample_planner
             (start sample_books [Some timeout_error]) timeout_error eq_refl).
  split; reflexivity.
Defined.

(** ** Writes that are not undone *)

Lemma fault_with_books (n : nat) (b : list doc) (w : world) :
  fault n (with_books b w) = fault n w.
Proof. reflexivity. Qed.

Lemma fault_with_connected (n : nat) (b : bool) (w : world) :
  fault n (with_connected b w) = fault n w.
Proof. reflexivity. Qed.

Lemma books_with_books (b : list doc) (w : world) :
  books (with_books b w) = b.
Proof. reflexivity. Qed.

Lemma await_toArray_reject (c : cursor) (w : world) (e : error) :
  pending w = Some e -> await_toArray c w = (Throw e, issue (CToArray c) w).
Proof. intros H. unfold await_toArray. now apply await_reject. Qed.

Lemma await_updateOne_reject (f : filter) (k : string) (v : value)
  (w : world) (e : error) :
  pending w = Some e ->
  await_updateOne f k v w
  = (Throw e,
     if applied e
     then with_books (updateOne f k v (books w)) (issue (CUpdateOne f k v) w)
     else issue (CUpdateOne f k v) w).
Proof.
  intros H. unfold await_updateOne. now rewrite (await_write_reject _ _ _ e H).
Qed.

Lemma await_findOne_reject (f : filter) (w : world) (e : error) :
  pending w = Some e -> await_findOne f w = (Throw e, issue (CFindOne f) w).
Proof. intros H. unfold await_findOne. now apply await_reject. Qed.

Lemma await_deleteOne_reject (f : filter) (w : world) (e : error) :
  pending w = Some e ->
  await_deleteOne f w
  = (Throw e,
     if applied e
     then with_books (deleteOne f (books w)) (issue (CDeleteOne f) w)
     else issue (CDeleteOne f) w).
Proof.
  intros H. unfold await_deleteOne. now rewrite (await_write_reject _ _ _ e H).
Qed.

Ltac scheduled :=
  rewrite pending_fault;
  repeat first [ rewrite fault_emit | rewrite fault_issue
               | rewrite fault_with_books | rewrite fault_with_connected ];
  eassumption.

Ltac stored :=
  cbn [snd];
  repeat first [ rewrite books_emit | rewrite books_issue
               | rewrite books_with_books ];
  try reflexivity.

Ltac served :=
  first [ erewrite bind_ok by apply printResult_run
        | erewrite bind_ok by (apply await_toArray_run; scheduled)
        | erewrite bind_ok by (apply await_updateOne_run; scheduled)
        | erewrite bind_ok by (apply await_findOne_run; scheduled)
        | erewrite bind_ok by (apply await_deleteOne_run; scheduled)
        | erewrite bind_ok by apply console_log_run ];
  repeat first [ rewrite books_emit | rewrite books_issue
               | rewrite books_with_books ].

Ltac rejected :=
  first [ erewrite bind_throw by (apply await_toArray_reject; scheduled)
        | erewrite bind_throw by (apply await_updateOne_reject; scheduled)
        | erewrite bind_throw by (apply await_findOne_reject; scheduled)
        | erewrite bind_throw by (apply await_deleteOne_reject; scheduled) ].

(** The collection Task 2 leaves, by the answers of the store to its six
    calls. *)
Lemma runTask2_effects (w : world) :
  books (snd (runTask2 w)) = task2_leaves w.
Proof.
  unfold task2_leaves, runTask2, reprice. served.
  destruct (fault 0 w) eqn:E0. { rejected. stored. }
  do 2 served.
  destruct (fault 1 w) eqn:E1. { rejected. stored. }
  do 2 served.
  destruct (fault 2 w) eqn:E2. { rejected. stored. }
  do 2 served.
  destruct (fault 3 w) as [e3|] eqn:E3.
  { rejected. cbn [snd]. destruct (applied e3); stored. }
  do 2 served.
  destruct (fault 4 w) eqn:E4. { rejected. stored. }
  do 2 served.
  destruct (fault 5 w) as [e5|] eqn:E5.
  { rejected. cbn [snd]. destruct (applied e5); stored. }
  served. rewrite printResult_run. stored.
Qed.

Lemma read_only_explain
  (planner : list index_keys -> list doc -> filter -> explainPlan)
  (f : filter) :
  read_only (await_explain planner f).
Proof. apply read_only_await. intros w. now split. Qed.

Lemma runTask5_keeps_books
  (planner : list index_keys -> list doc -> filter -> explainPlan)
  (w : world) :
  books (snd (runTask5 planner w)) = books w.
Proof.
  rewrite runTask5_indexes.
  match goal with
  | |- books (snd (?K (after_indexes w))) = _ =>
      assert (HK : read_only K)
  end.
  { repeat first [ apply read_only_explain | apply read_only_analyzePlan
                 | apply read_only_bind; [|intros ?] ]. }
  rewrite (proj1 (HK (after_indexes w))). apply after_indexes_books.
Qed.

Lemma main_books
  (planner : list index_keys -> list doc -> filter -> explainPlan)
  (w : world) :
  books (snd (main planner w))
  = match fault 0 w with
    | Some _ => books w
    | None =>
        task2_leaves (emit [connected_message]
                           (with_connected true (issue CConnect w)))
    end.
Proof.
  rewrite main_run. cbn [snd].
  assert (Hm : forall (r : outcome unit) (wb : world),
             books (match r with
                    | Ok _ => emit [closing_message] (snd (close wb))
                    | Throw e =>
                        emit [closing_message]
                          (snd (close (emit [ErrorObj "An error occurred:" e] wb)))
                    end) = books wb)
    by (intros [[]|e] wb; reflexivity).
  destruct (workflow planner w) as [r wb] eqn:Ew. rewrite Hm.
  change wb with (snd (r, wb)). rewrite <- Ew. clear Ew Hm r wb.
  rewrite workflow_steps. unfold connect, await. rewrite pending_fault.
  destruct (fault 0 w) eqn:E0; [reflexivity|].
  rewrite <- runTask2_effects.
  destruct (runTask2 (emit [connected_message]
                           (with_connected true (issue CConnect w))))
    as [[[]|e2] w2]; [|reflexivity]. cbn [snd].
  pose proof (proj1 (read_only_runTask3 w2)) as H3.
  destruct (runTask3 w2) as [[[]|e3] w3]; [|exact H3]. cbn [snd] in H3.
  pose proof (proj1 (read_only_runTask4 w3)) as H4.
  destruct (runTask4 w3) as [[[]|e4] w4]; cbn [snd] in H4 |- *; [|congruence].
  rewrite runTask5_keeps_books. congruence.
Qed.

(** Task 2 is the only part of [main] that writes, and [main] neither
    undoes nor repeats a write.  Whatever the store answers, [main] leaves
    the collection as it found it, or with the price of 'The Hobbit' set,
    or with that and 'Moby Dick' removed.  When the connection or a find
    before the update is rejected (calls 0 to 3) the collection is
    untouched.  A rejected update (call 4) leaves the new price exactly
    when the server had applied it before rejecting; after a served update
    a rejected verifying read (call 5) leaves the new price in place; a
    rejected delete (call 6) removes 'Moby Dick' exactly when the server
    had applied it; once the delete is served the collection stays updated
    whatever fails later. *)
Theorem writes_persist
  (planner : list index_keys -> list doc -> filter -> explainPlan)
  (w : world) :
  In (books (snd (main planner w)))
     [ books w; reprice (books w); deleteOne moby_dick (reprice (books w)) ] /\
  ((exists i : nat, i <= 3 /\ fault i w <> None) ->
   books (snd (main planner w)) = books w) /\
  ((forall i : nat, i <= 3 -> fault i w = None) ->
   forall e : error, fault 4 w = Some e ->
   books (snd (main planner w))
   = if applied e then reprice (books w) else books w) /\
  ((forall i : nat, i <= 4 -> fault i w = None) ->
   fault 5 w <> None ->
   books (snd (main planner w)) = reprice (books w)) /\
  ((forall i : nat, i <= 5 -> fault i w = None) ->
   forall e : error, fault 6 w = Some e ->
   books (snd (main planner w))
   = if applied e then deleteOne moby_dick (reprice (books w))
     else reprice (books w)) /\
  ((forall i : nat, i <= 6 -> fault i w = None) ->
   books (snd (main planner w)) = deleteOne moby_dick (reprice (books w))).
Proof.
  rewrite main_books. unfold task2_leaves.
  repeat first [ rewrite fault_emit | rewrite fault_with_connected
               | rewrite fault_issue ].
  change (books (emit [connected_message]
                      (with_connected true (issue CConnect w))))
    with (books w).
  split; [|split; [|split; [|split; [|split]]]].
  - destruct (fault 0 w), (fault 1 w), (fault 2 w), (fault 3 w);
      try (cbn; tauto).
    destruct (fault 4 w) as [e4|]; [destruct (applied e4); cbn; tauto|].
    destruct (fault 5 w); [cbn; tauto|].
    destruct (fault 6 w) as [e6|]; [destruct (applied e6)|]; cbn; tauto.
  - intros (i & Hi & Hf).
    assert (Hc : i = 0 \/ i = 1 \/ i = 2 \/ i = 3) by lia.
    destruct Hc as [->|[->|[->| ->]]];
      destruct (fault 0 w), (fault 1 w), (fault 2 w), (fault 3 w);
      try reflexivity; now contradiction Hf.
  - intros Hf e He.
    now rewrite (Hf 0), (Hf 1), (Hf 2), (Hf 3), He by lia.
  - intros Hf H5.
    rewrite (Hf 0), (Hf 1), (Hf 2), (Hf 3), (Hf 4) by lia.
    destruct (fault 5 w); [reflexivity|now contradiction H5].
  - intros Hf e He.
    now rewrite (Hf 0), (Hf 1), (Hf 2), (Hf 3), (Hf 4), (Hf 5), He by lia.
  - intros Hf.
    now rewrite (Hf 0), (Hf 1), (Hf 2), (Hf 3), (Hf 4), (Hf 5), (Hf 6) by lia.
Qed.

Lemma writes_persist_witness :
  (forall i : nat, i <= 5 ->
     fault i (start sample_books
                [None; None; None; None; None; None; Some late_error]) = None) /\
  fault 6 (start sample_books
             [None; None; None; None; None; None; Some late_error])
  = Some late_error /\
  fst (workflow sample_planner
         (start sample_books
            [None; None; None; None; None; None; Some late_error]))
  = Throw late_error /\
  books (snd (main sample_planner
                (start sample_books
                   [None; None; None; None; None; None; Some late_error])))
  = deleteOne moby_dick (reprice sample_books) /\
  List.length (deleteOne moby_dick (reprice sample_books)) = 11.
Proof.
  assert (H : forall i : nat, i <= 5 ->
     fault i (start sample_books
                [None; None; None; None; None; None; Some late_error]) = None).
  { intros i Hi.
    assert (Hc : i = 0 \/ i = 1 \/ i = 2 \/ i = 3 \/ i = 4 \/ i = 5) by lia.
    destruct Hc as [->|[->|[->|[->|[->| ->]]]]]; reflexivity. }
  split; [exact H|]. split; [reflexivity|].
  split; [vm_compute; reflexivity|]. split; [|reflexivity].
  exact (proj1 (proj2 (proj2 (proj2 (proj2
           (writes_persist sample_planner
              (start sample_books
                 [None; None; None; None; None; None; Some late_error]))))))
           H late_error eq_refl).
Defined.

(** ** The further properties on the sample bookstore *)

Lemma task2_finds_witness :
  lookup "published_year" [("title", VStr "Undated")] = None /\
  ~ In [("title", VStr "Undated")]
       (toArray recent_query [[("title", VStr "Undated")]]) /\
  field "published_year"
        (book 2 "1984" "George Orwell" "Dystopian" 1949 10.99 true)
  = VNum 1949 /\
  (1949 <= 1950)%Q /\
  ~ In (book 2 "1984" "George Orwell" "Dystopian" 1949 10.99 true)
       (toArray recent_query sample_books).
Proof.
  split; [reflexivity|]. split.
  - apply (task2_finds [[("title", VStr "Undated")]] [("title", VStr "Undated")]).
    reflexivity.
  - split; [reflexivity|]. split; [discriminate|].
    apply (task2_finds sample_books
             (book 2 "1984" "George Orwell" "Dystopian" 1949 10.99 true))
      with (y := 1949%Q); [reflexivity|discriminate].
Defined.

Lemma projected_books_witness :
  exists (p : doc) (ps : list doc),
    toArray projected_query sample_books = p :: ps /\
    lookup "title" p = Some (VStr "To Kill a Mockingbird") /\
    lookup "genre" p = None.
Proof.
  pose proof (projected_books sample_books) as H.
  destruct (toArray projected_query sample_books) as [|p ps] eqn:E.
  - inversion H.
  - exists p, ps. split; [reflexivity|].
    unfold sample_books in H. inversion H as [|d q l l' Hd Hl]; subst.
    destruct Hd as (Ht & _ & _ & _ & Hk).
    split; [rewrite Ht; reflexivity|].
    apply Hk; discriminate.
Defined.

Lemma price_orders_reverse_witness :
  distinct_field "price" (firstn 4 sample_books) /\
  toArray sorted_desc_query (firstn 4 sample_books)
  = rev (toArray sorted_asc_query (firstn 4 sample_books)).
Proof.
  assert (H : distinct_field "price" (firstn 4 sample_books)).
  { repeat (constructor; [repeat (constructor; [reflexivity|]); constructor|]).
    constructor. }
  split; [exact H|].
  apply (price_orders_reverse (firstn 4 sample_books) H).
Defined.

Lemma genre_rows_witness :
  exists (out : list doc) (r : doc),
    aggregate genre_pipeline sample_books = Ok out /\
    In r out /\
    field "_id" r = VStr "Fiction" /\
    field "bookCount" r = as_count 4.
Proof.
  destruct (genre_rows sample_books) as (out & Hrun & _ & Hrow & Hall).
  destruct (Hall (book 1 "To Kill a Mockingbird" "Harper Lee" "Fiction" 1960
                       12.99 true)) as (r & Hr & He); [now left|].
  assert (Hid : field "_id" r = VStr "Fiction").
  { rewrite value_eqb_sym in He. now apply value_eqb_str in He. }
  exists out, r. split; [exact Hrun|]. split; [exact Hr|].
  split; [exact Hid|].
  destruct (Hrow r Hr) as (_ & _ & Hn). rewrite Hn, Hid. reflexivity.
Defined.

Lemma top_author_witness :
  sample_books <> [] /\
  exists (a : value) (n : nat),
    aggregate author_pipeline sample_books
    = Ok [[("_id", a); ("numberOfBooks", as_count n)]] /\
    books_by sample_books (VStr "J.R.R. Tolkien") <= n.
Proof.
  split; [discriminate|].
  destruct (top_author sample_books) as (_ & H).
  destruct H as (a & n & Hrun & _ & _ & _ & Hmax); [discriminate|].
  exists a, n. split; [exact Hrun|].
  apply (Hmax (book 5 "The Hobbit" "J.R.R. Tolkien" "Fantasy" 1937 12.50 true)).
  cbn. tauto.
Defined.

Lemma task2_any_collection_witness :
  faults (start sample_books []) = [] /\
  findOne hobbit (books (start sample_books []))
  = Some (book 5 "The Hobbit" "J.R.R. Tolkien" "Fantasy" 1937 12.50 true) /\
  count moby_dick (books (start sample_books [])) = 1 /\
  fst (runTask2 (start sample_books [])) = Ok tt /\
  List.length (books (snd (runTask2 (start sample_books [])))) + 1 = 12 /\
  count moby_dick (books (snd (runTask2 (start sample_books [])))) = 0 /\
  count hobbit (books (snd (runTask2 (start sample_books [])))) = 1 /\
  exists l1 l2 : list doc,
    books (start sample_books [])
    = l1 ++ book 5 "The Hobbit" "J.R.R. Tolkien" "Fantasy" 1937 12.50 true :: l2 /\
    count hobbit l1 = 0 /\
    books (snd (runTask2 (start sample_books [])))
    = deleteOne moby_dick
        (l1 ++ set_field "price" (VNum 15.99)
                 (book 5 "The Hobbit" "J.R.R. Tolkien" "Fantasy" 1937 12.50 true)
            :: l2).
Proof.
  destruct (task2_any_collection (start sample_books []) eq_refl)
    as (Hok & Hlen & Hm & Hh & _ & Hfirst).
  split; [reflexivity|]. split; [reflexivity|]. split; [reflexivity|].
  split; [exact Hok|]. split; [exact Hlen|]. split; [exact Hm|].
  split; [exact Hh|]. exact (Hfirst _ eq_refl).
Defined.

Lemma task2_rerun_witness :
  faults (start sample_books []) = [] /\
  count moby_dick (books (start sample_books [])) <= 1 /\
  books (snd (runTask2 (snd (runTask2 (start sample_books [])))))
  = books (snd (runTask2 (start sample_books []))).
Proof.
  assert (Hm : count moby_dick (books (start sample_books [])) <= 1)
    by (vm_compute; lia).
  split; [reflexivity|]. split; [exact Hm|].
  apply (task2_rerun (start sample_books []) eq_refl Hm).
Defined.

Lemma calls_in_order_witness :
  workflow sample_planner (start sample_books [])
  = (Ok tt, snd (workflow sample_planner (start sample_books []))) /\
  trace (snd (main sample_planner (start sample_books [])))
  = script_calls ++ [CClose].
Proof.
  assert (Hw : workflow sample_planner (start sample_books [])
               = (Ok tt, snd (workflow sample_planner (start sample_books []))))
    by (vm_compute; reflexivity).
  split; [exact Hw|].
  destruct (calls_in_order sample_planner (start sample_books []))
    as (k & _ & Ht & Hfull & _).
  rewrite Ht, (Hfull _ Hw), firstn_all. reflexivity.
Defined.
